(** * The scene-description converter [map_porter.py], embedded in Rocq

    The development follows the Python source function by function:
    Python [str] helpers, [os.path] (the Windows flavour, [ntpath]), the
    [lxml] element interface, Python dictionaries, and then the functions
    of the converter themselves. *)

From Stdlib Require Import String Ascii List Arith Bool Lia.
From stdpp Require Import base option list gmap strings sorting.
Import ListNotations.
Local Open Scope string_scope.
Local Open Scope nat_scope.
Local Open Scope list_scope.
Set Warnings "-register-all".

(** ** Python [str] operations

    Text is ASCII: case mapping and white space are Python's on the code
    points below 128, and the operations leave the other values of
    [ascii] alone. *)
Module Str.

Definition code (c : ascii) : nat := nat_of_ascii c.

Definition is_upper (c : ascii) : bool := (65 <=? code c) && (code c <=? 90).

Definition lower_char (c : ascii) : ascii :=
  if is_upper c then ascii_of_nat (code c + 32) else c.

(** [s.lower()]. *)
Fixpoint lower (s : string) : string :=
  match s with
  | EmptyString => EmptyString
  | String c r => String (lower_char c) (lower r)
  end.

(** [s.replace(a, b)] for one-character [a] and [b]. *)
Fixpoint replace_char (a b : ascii) (s : string) : string :=
  match s with
  | EmptyString => EmptyString
  | String c r =>
      String (if Ascii.eqb c a then b else c) (replace_char a b r)
  end.

(** [s.replace(a, '')] for a one-character [a]. *)
Fixpoint remove_char (a : ascii) (s : string) : string :=
  match s with
  | EmptyString => EmptyString
  | String c r =>
      if Ascii.eqb c a then remove_char a r else String c (remove_char a r)
  end.

(** [s.split(sep)] for a one-character separator: never the empty list. *)
Fixpoint split (sep : ascii) (s : string) : list string :=
  match s with
  | EmptyString => [EmptyString]
  | String c r =>
      if Ascii.eqb c sep then EmptyString :: split sep r
      else match split sep r with
           | [] => [String c EmptyString]
           | h :: t => String c h :: t
           end
  end.

(** [sep.join(parts)]. *)
Definition join (sep : string) (parts : list string) : string :=
  String.concat sep parts.

(** White space of [str.strip()] below code point 128. *)
Definition is_space (c : ascii) : bool :=
  ((9 <=? code c) && (code c <=? 13))
  || ((28 <=? code c) && (code c <=? 32)).

Fixpoint lstrip_list (l : list ascii) : list ascii :=
  match l with
  | [] => []
  | c :: r => if is_space c then lstrip_list r else l
  end.

Definition lstrip (s : string) : string :=
  string_of_list_ascii (lstrip_list (list_ascii_of_string s)).

Definition rstrip (s : string) : string :=
  string_of_list_ascii
    (rev (lstrip_list (rev (list_ascii_of_string s)))).

(** [s.strip()]. *)
Definition strip (s : string) : string := lstrip (rstrip s).

(** [s.lstrip(c)] for a one-character argument. *)
Fixpoint lstrip_char (a : ascii) (s : string) : string :=
  match s with
  | EmptyString => EmptyString
  | String c r => if Ascii.eqb c a then lstrip_char a r else s
  end.

(** [s[i:]] and [s[:i]] for [0 <= i]. *)
Fixpoint drop (i : nat) (s : string) : string :=
  match i, s with
  | 0, _ => s
  | S _, EmptyString => EmptyString
  | S j, String _ r => drop j r
  end.

Definition take (i : nat) (s : string) : string := substring 0 i s.

(** [s[i:j]]. *)
Definition slice (i j : nat) (s : string) : string := substring i (j - i) s.

(** [s.find(c, start)], [None] for [-1]. *)
Fixpoint find_char (a : ascii) (s : string) : option nat :=
  match s with
  | EmptyString => None
  | String c r =>
      if Ascii.eqb c a then Some 0 else S <$> find_char a r
  end.

Definition find_from (a : ascii) (start : nat) (s : string) : option nat :=
  if start <=? String.length s
  then (fun i => start + i) <$> find_char a (drop start s)
  else None.

(** [s.startswith(p)] and [s.endswith(p)]. *)
Definition startswith (p s : string) : bool := String.prefix p s.

Definition endswith (p s : string) : bool :=
  (String.length p <=? String.length s)
  && String.eqb (drop (String.length s - String.length p) s) p.

(** The first and the last character, where there is one. *)
Definition first_char (s : string) : option ascii :=
  match s with EmptyString => None | String c _ => Some c end.

Fixpoint last_char (s : string) : option ascii :=
  match s with
  | EmptyString => None
  | String c EmptyString => Some c
  | String _ r => last_char r
  end.

(** Truth value of a string: non-empty. *)
Definition nonempty (s : string) : bool :=
  match s with EmptyString => false | _ => true end.

End Str.

(** ** [os.path] on Windows: CPython's [ntpath]

    The converter is written for Windows paths: its docstring example and
    the [replace('\\', '/')] after [os.path.join('/Game', ...)] hold only
    there. [os.path] is therefore [ntpath], taken from CPython 3.10. *)
Module NtPath.

Definition sep : ascii := "\"%char.
Definition altsep : ascii := "/"%char.
Definition colon : ascii := ":"%char.

Definition is_sep (c : ascii) : bool := Ascii.eqb c sep || Ascii.eqb c altsep.

Definition head_is_sep (s : string) : bool :=
  match Str.first_char s with Some c => is_sep c | None => false end.

Definition last_is_sep (s : string) : bool :=
  match Str.last_char s with Some c => is_sep c | None => false end.

(** [ntpath.splitdrive]: a drive letter ([X:]) or a UNC share
    ([\\host\share]) and the rest. *)
Definition splitdrive (p : string) : string * string :=
  if 2 <=? String.length p then
    let normp := Str.replace_char altsep sep p in
    if String.eqb (Str.slice 0 2 normp) "\\"
       && negb (String.eqb (Str.slice 2 3 normp) "\") then
      match Str.find_from sep 2 normp with
      | None => (EmptyString, p)
      | Some index =>
          match Str.find_from sep (index + 1) normp with
          | Some index2 =>
              if index2 =? index + 1 then (EmptyString, p)
              else (Str.take index2 p, Str.drop index2 p)
          | None => (p, EmptyString)
          end
      end
    else if String.eqb (Str.slice 1 2 normp) ":" then
      (Str.take 2 p, Str.drop 2 p)
    else (EmptyString, p)
  else (EmptyString, p).

(** The end of [ntpath.join]: a separator between a UNC drive and a
    relative path. *)
Definition join_finish (result_drive result_path : string) : string :=
  if Str.nonempty result_path && negb (head_is_sep result_path)
     && Str.nonempty result_drive
     && negb (match Str.last_char result_drive with
              | Some c => Ascii.eqb c colon
              | None => false
              end)
  then result_drive +:+ String sep result_path
  else result_drive +:+ result_path.

(** [ntpath.join(path, p)], the two-argument call the converter makes. *)
Definition join (path p : string) : string :=
  let '(result_drive, result_path) := splitdrive path in
  let '(p_drive, p_path) := splitdrive p in
  let relative (drive : string) :=
    let result_path1 :=
      if Str.nonempty result_path && negb (last_is_sep result_path)
      then result_path +:+ String sep EmptyString
      else result_path in
    join_finish drive (result_path1 +:+ p_path) in
  if Str.nonempty p_path && head_is_sep p_path then
    join_finish
      (if Str.nonempty p_drive || negb (Str.nonempty result_drive)
       then p_drive else result_drive)
      p_path
  else if Str.nonempty p_drive && negb (String.eqb p_drive result_drive) then
    if negb (String.eqb (Str.lower p_drive) (Str.lower result_drive))
    then join_finish p_drive p_path
    else relative p_drive
  else relative result_drive.

(** The [while] loop of [ntpath.normpath] over [comps]. The loop edits the
    list in place with a cursor [i]; the components before the cursor are
    kept here as a stack [done] (last one first), so [i > 0] is
    [done <> []] and [comps[i-1]] is the head of [done]. *)
Fixpoint collapse (rooted : bool) (done comps : list string) : list string :=
  match comps with
  | [] => rev done
  | c :: rest =>
      if negb (Str.nonempty c) || String.eqb c "." then
        collapse rooted done rest
      else if String.eqb c ".." then
        match done with
        | prev :: before =>
            if negb (String.eqb prev "..") then collapse rooted before rest
            else collapse rooted (c :: done) rest
        | [] =>
            if rooted then collapse rooted done rest
            else collapse rooted (c :: done) rest
        end
      else collapse rooted (c :: done) rest
  end.

(** [ntpath.normpath]. *)
Definition normpath (path : string) : string :=
  if Str.startswith "\\.\" path || Str.startswith "\\?\" path then path
  else
    let path1 := Str.replace_char altsep sep path in
    let '(prefix, rest) := splitdrive path1 in
    let '(prefix1, rest1) :=
      if Str.startswith "\" rest
      then (prefix +:+ "\", Str.lstrip_char sep rest)
      else (prefix, rest) in
    let comps := collapse (Str.endswith "\" prefix1) [] (Str.split sep rest1) in
    let comps1 :=
      if negb (Str.nonempty prefix1) && match comps with [] => true | _ => false end
      then ["."] else comps in
    prefix1 +:+ Str.join "\" comps1.

End NtPath.

(** ** The [lxml] element interface

    An element has a tag, attributes, the text before its first child and
    its child elements. *)
Module Lxml.

Inductive element : Type :=
  Element (tag : string) (attrib : list (string * string))
          (text : option string) (children : list element).

Definition tag (e : element) : string :=
  match e with Element t _ _ _ => t end.
Definition attrib (e : element) : list (string * string) :=
  match e with Element _ a _ _ => a end.
Definition text (e : element) : option string :=
  match e with Element _ _ x _ => x end.
Definition children (e : element) : list element :=
  match e with Element _ _ _ cs => cs end.

Fixpoint assoc (k : string) (l : list (string * string)) : option string :=
  match l with
  | [] => None
  | (k', v) :: r => if String.eqb k' k then Some v else assoc k r
  end.

(** [e.get(name)]: the attribute, or [None]. *)
Definition get (e : element) (name : string) : option string :=
  assoc name (attrib e).

(** [e.findall(t)]: the children with tag [t], in document order. *)
Definition findall (e : element) (t : string) : list element :=
  List.filter (fun c => String.eqb (tag c) t) (children e).

(** [e.find("PROPERTY[@Name='n']")]: the first [PROPERTY] child whose
    [Name] attribute is [n]. *)
Definition find_property (e : element) (n : string) : option element :=
  List.find
    (fun c => String.eqb (tag c) "PROPERTY"
              && match get c "Name" with
                 | Some v => String.eqb v n
                 | None => false
                 end)
    (children e).

(** Truth value of [e.text]: present and non-empty. *)
Definition text_or_empty (e : element) : string :=
  match text e with Some s => s | None => EmptyString end.

Definition has_text (e : element) : bool := Str.nonempty (text_or_empty e).

(** [e.clear()]: attributes, text and children go; the tag stays. *)
Definition clear (e : element) : element := Element (tag e) [] None [].

(** [etree.Element("DUMMY")] followed by [set('RefLinkID', id)]. *)
Definition dummy_ref (id : string) : element :=
  Element "DUMMY" [("RefLinkID", id)] None [].

End Lxml.
Export Lxml.

(** Truth value of an optional string ([None] and [''] are false). *)
Definition truthy (o : option string) : bool :=
  match o with Some s => Str.nonempty s | None => false end.

(** ** Python dictionaries

    A dictionary keeps its keys in insertion order: assigning to a key that
    is present keeps the key's place, a new key goes last. *)
Module Dict.
Section Dict.
Context {K V : Type} `{EqDecision K}.

Fixpoint set (k : K) (v : V) (d : list (K * V)) : list (K * V) :=
  match d with
  | [] => [(k, v)]
  | (k', v') :: r =>
      if decide (k' = k) then (k, v) :: r else (k', v') :: set k v r
  end.

Fixpoint get (k : K) (d : list (K * V)) : option V :=
  match d with
  | [] => None
  | (k', v) :: r => if decide (k' = k) then Some v else get k r
  end.

(** [d.update(d2)]: the items of [d2] are assigned in order. *)
Definition update (d d2 : list (K * V)) : list (K * V) :=
  fold_left (fun acc kv => set kv.1 kv.2 acc) d2 d.

Definition keys (d : list (K * V)) : list K := map fst d.
Definition values (d : list (K * V)) : list V := map snd d.

(** A list of items is a dictionary when no key occurs twice. *)
Definition wf (d : list (K * V)) : Prop := NoDup (keys d).

End Dict.
End Dict.

(** ** Effects: the log file and the global set of unhandled components *)

Inductive level : Type := INFO | WARNING | ERROR.

(** The messages of the converter, by call site, with the values their
    format strings interpolate. *)
Inductive message : Type :=
  | InvalidNifPath (nif_path_rel : option string)
  | NoDataRoot (normalized_path : string)
  | BadTranslation (text : string)
  | BadRotation
  | BadScale (text : string)
  | BadRGB (text : string)
  | BadFloat (text : string)
  | FirstPassStart
  | FirstPassComplete (components templates : nat)
  | SecondPassStart
  | SecondPassComplete
  | WritingScene
  | UnhandledHeader
  | UnhandledItem (comp : string)
  | UnexpectedError.

(** What a call does besides returning: a record written to the log, or a
    string added to [UNHANDLED_COMPONENTS]. *)
Inductive event : Type :=
  | Log (lvl : level) (msg : message)
  | AddUnhandled (comp : string).

Inductive exn : Type := RecursionError | TypeError.

Inductive result (A : Type) : Type :=
  | Ok (a : A)
  | Raise (e : exn).
Arguments Ok {A} a.
Arguments Raise {A} e.

#[global] Instance exn_eq_dec : EqDecision exn.
Proof. solve_decision. Defined.
#[global] Instance result_eq_dec {A} `{EqDecision A} : EqDecision (result A).
Proof. solve_decision. Defined.

(** A computation: its result and the events it caused, oldest first. *)
Definition M (A : Type) : Type := result A * list event.

Definition ret {A} (a : A) : M A := (Ok a, []).
Definition raise {A} (e : exn) : M A := (Raise e, []).
(** A call that cannot raise. *)
Definition lift {A} (p : A * list event) : M A := (Ok p.1, p.2).

Definition bind {A B} (m : M A) (f : A -> M B) : M B :=
  match m with
  | (Ok a, evs) => let '(r, evs') := f a in (r, evs ++ evs')
  | (Raise e, evs) => (Raise e, evs)
  end.

Notation "'do' x <- m ; k" := (bind m (fun x => k))
  (at level 10, x name, m at level 100, k at level 200).

(** The log, and the set, after a sequence of events. *)
Definition log_of (evs : list event) : list (level * message) :=
  omap (fun ev => match ev with Log l m => Some (l, m) | _ => None end) evs.

(** The strings added to the set, in order, and the set they make. *)
Definition added (evs : list event) : list string :=
  omap (fun ev => match ev with AddUnhandled s => Some s | _ => None end) evs.

Definition unhandled_of (evs : list event) : gset string :=
  list_to_set (added evs).

(** ** The converter *)

(** The values of the output document. *)
Inductive value (float : Type) : Type :=
  | VNone
  | VStr (s : string)
  | VFloat (f : float)
  | VList (l : list (value float)).
Arguments VNone {float}.
Arguments VStr {float} s.
Arguments VFloat {float} f.
Arguments VList {float} l.

(** A hashable value used as a dictionary key. *)
Inductive hkey (float : Type) : Type :=
  | KNone
  | KStr (s : string)
  | KFloat (f : float).
Arguments KNone {float}.
Arguments KStr {float} s.
Arguments KFloat {float} f.

Section Converter.

(** Python's [float] type and the built-in [float(text)], [None] where it
    raises [ValueError]. Floats used as dictionary keys are compared by
    [=]. *)
Context {float : Type} `{EqDecision float}.
Variable py_float : string -> option float.

#[local] Abbreviation value := (value float).
#[local] Abbreviation hkey := (hkey float).
(** A Normalized Component: attribute name to value. *)
#[local] Abbreviation attributes := (list (string * value)).

#[global] Instance hkey_eq_dec : EqDecision hkey.
Proof. solve_decision. Defined.

(** An optional attribute as a value: [None] is written [null]. *)
Definition of_opt (o : option string) : value :=
  match o with Some s => VStr s | None => VNone end.

(** [hash(v)] succeeds: lists are not hashable. *)
Definition key_of (v : value) : option hkey :=
  match v with
  | VNone => Some KNone
  | VStr s => Some (KStr s)
  | VFloat f => Some (KFloat f)
  | VList _ => None
  end.

(** [f"{x}"] for an optional string. *)
Definition fmt (o : option string) : string :=
  match o with Some s => s | None => "None" end.

(** *** Path helpers *)

(** [l.index(x)], [None] for [ValueError]. *)
Fixpoint index_of (x : string) (l : list string) : option nat :=
  match l with
  | [] => None
  | y :: r => if String.eqb y x then Some 0 else S <$> index_of x r
  end.

(** [get_unreal_asset_path(nif_path_rel, gsa_dir)]. The first argument is
    [None] for a value that is not a [str]. *)
Definition get_unreal_asset_path (nif_path_rel : option string)
    (gsa_dir : string) : option string * list event :=
  match nif_path_rel with
  | None => (None, [Log WARNING (InvalidNifPath nif_path_rel)])
  | Some rel =>
      if negb (Str.nonempty rel) then
        (None, [Log WARNING (InvalidNifPath nif_path_rel)])
      else
        let full_nif_path := NtPath.join gsa_dir rel in
        let normalized_path := NtPath.normpath full_nif_path in
        let path_parts :=
          Str.split "/" (Str.replace_char "\" "/" normalized_path) in
        match index_of "Data" path_parts with
        | Some data_index =>
            let relative_to_data := skipn (data_index + 1) path_parts in
            let clean_path := Str.join "/" relative_to_data in
            let clean_path1 :=
              if Str.endswith ".nif" (Str.lower clean_path)
              then Str.take (String.length clean_path - 4) clean_path
              else clean_path in
            (Some (Str.replace_char "\" "/" (NtPath.join "/Game" clean_path1)),
             [])
        | None => (None, [Log WARNING (NoDataRoot normalized_path)])
        end
  end.

(** *** Component parsers *)

(** [[float(v.strip()) for v in text.split(',')]], [None] where one of
    the conversions raises. *)
Definition floats_of (text : string) : option (list float) :=
  mapM (fun v => py_float (Str.strip v)) (Str.split "," text).

Definition vfloats (l : list float) : value := VList (map VFloat l).

(** The rows of a rotation matrix: rows without text are passed over. *)
Fixpoint matrix_of (rows : list element) : option (list (list float)) :=
  match rows with
  | [] => Some []
  | row :: rest =>
      if has_text row then
        match floats_of (text_or_empty row) with
        | Some r => cons r <$> matrix_of rest
        | None => None
        end
      else matrix_of rest
  end.

(** The three blocks of [parse_transform], each on the dictionary built
    so far. *)
Definition read_translation (component : element) (transform : attributes)
    : attributes * list event :=
  match find_property component "Translation" with
  | Some translation_prop =>
      if has_text translation_prop then
        match floats_of (text_or_empty translation_prop) with
        | Some l => (Dict.set "translation" (vfloats l) transform, [])
        | None =>
            (transform,
             [Log WARNING (BadTranslation (text_or_empty translation_prop))])
        end
      else (transform, [])
  | None => (transform, [])
  end.

Definition read_rotation (component : element) (transform : attributes)
    : attributes * list event :=
  match find_property component "Rotation" with
  | Some rotation_matrix =>
      match findall rotation_matrix "ROW" with
      | [] => (transform, [])
      | rows =>
          match matrix_of rows with
          | Some [] => (transform, [])
          | Some matrix =>
              (Dict.set "rotation" (VList (map vfloats matrix)) transform, [])
          | None => (transform, [Log WARNING BadRotation])
          end
      end
  | None => (transform, [])
  end.

Definition read_scale (component : element) (transform : attributes)
    : attributes * list event :=
  match find_property component "Scale" with
  | Some scale_prop =>
      if has_text scale_prop then
        match py_float (text_or_empty scale_prop) with
        | Some f => (Dict.set "scale" (VFloat f) transform, [])
        | None =>
            (transform, [Log WARNING (BadScale (text_or_empty scale_prop))])
        end
      else (transform, [])
  | None => (transform, [])
  end.

(** [parse_transform(component)]. *)
Definition parse_transform (component : element) : attributes * list event :=
  let '(transform, evs1) := read_translation component [] in
  let '(transform, evs2) := read_rotation component transform in
  let '(transform, evs3) := read_scale component transform in
  (transform, evs1 ++ evs2 ++ evs3).

(** The key of a light property:
    [prop_name.lower().replace(' ', '_').replace('(', '').replace(')', '')]. *)
Definition light_key (prop_name : string) : string :=
  Str.remove_char ")"
    (Str.remove_char "(" (Str.replace_char " " "_" (Str.lower prop_name))).

(** The [RefLinkID]s of the [ITEM] children, empty ones left out. *)
Definition item_refs (prop : element) : list string :=
  omap (fun item =>
          match get item "RefLinkID" with
          | Some ref_id => if Str.nonempty ref_id then Some ref_id else None
          | None => None
          end)
       (findall prop "ITEM").

(** One turn of the loop of [parse_light]. *)
Definition light_step (light_props : attributes) (prop : element)
    : attributes * list event :=
  let prop_name := get prop "Name" in
  let prop_class := get prop "Class" in
  let prop_text :=
    if has_text prop then Str.strip (text_or_empty prop) else EmptyString in
  match prop_name with
  | None => (light_props, [])
  | Some name =>
      if negb (Str.nonempty name) then (light_props, [])
      else
        let key_name := light_key name in
        if bool_decide (prop_class = Some "Entity Pointer") then
          (Dict.set key_name (VList (map VStr (item_refs prop))) light_props,
           [])
        else if bool_decide (prop_class = Some "Color (RGB)") then
          match floats_of prop_text with
          | Some l => (Dict.set key_name (vfloats l) light_props, [])
          | None => (light_props, [Log WARNING (BadRGB prop_text)])
          end
        else if bool_decide (prop_class = Some "Float") then
          match py_float prop_text with
          | Some f => (Dict.set key_name (VFloat f) light_props, [])
          | None => (light_props, [Log WARNING (BadFloat prop_text)])
          end
        else (Dict.set key_name (VStr prop_text) light_props, [])
  end.

Fixpoint light_loop (props : list element) (light_props : attributes)
    : attributes * list event :=
  match props with
  | [] => (light_props, [])
  | prop :: rest =>
      let '(light_props1, evs) := light_step light_props prop in
      let '(light_props2, evs') := light_loop rest light_props1 in
      (light_props2, evs ++ evs')
  end.

(** [parse_light(component)]. *)
Definition parse_light (component : element) : attributes * list event :=
  light_loop (findall component "PROPERTY") [].

(** *** Core logic *)

(** The classes [get_component_data] passes over without a report. *)
Definition passed_over (comp_class : option string) : bool :=
  bool_decide (comp_class = Some "NiCameraComponent")
  || bool_decide (comp_class = Some "NiGeneralComponent")
  || bool_decide (comp_class = Some "NiCollisionComponent").

(** Lines 154-156 of [get_component_data]: the "Scene Root" property or,
    without one, the "NIF File Path" property. *)
Definition scene_root_property (component : element) : option element :=
  match find_property component "Scene Root" with
  | Some prop => Some prop
  | None => find_property component "NIF File Path"
  end.

(** Lines 147-164 of [get_component_data]: the base triple is written
    into [data], then the component is read by class. *)
Definition own_attributes (comp_link_id : string) (component : element)
    (gsa_dir : string) (data : attributes) : attributes * list event :=
  let comp_class := get component "Class" in
  let comp_name := get component "Name" in
  let data := Dict.set "link_id" (VStr comp_link_id) data in
  let data := Dict.set "class" (of_opt comp_class) data in
  let data := Dict.set "name" (of_opt comp_name) data in
  if bool_decide (comp_class = Some "NiTransformationComponent") then
    let '(transform, evs) := parse_transform component in
    (Dict.update data transform, evs)
  else if bool_decide (comp_class = Some "NiSceneGraphComponent") then
    match scene_root_property component with
    | Some prop =>
        if has_text prop then
          let nif_path_rel := Str.strip (text_or_empty prop) in
          let '(unreal_path, evs) :=
            get_unreal_asset_path (Some nif_path_rel) gsa_dir in
          let data := Dict.set "unreal_path" (of_opt unreal_path) data in
          let data := Dict.set "nif_path_rel" (VStr nif_path_rel) data in
          (data, evs)
        else (data, [])
    | None => (data, [])
    end
  else if bool_decide (comp_class = Some "NiLightComponent") then
    let '(light_props, evs) := parse_light component in
    (Dict.update data light_props, evs)
  else if negb (passed_over comp_class) then
    (data, [AddUnhandled (fmt comp_class +:+ "::" +:+ fmt comp_name)])
  else (data, []).

(** [get_component_data(component_ref, components_map, templates_map,
    gsa_dir)]. [fuel] bounds the depth of the recursion: with none left
    the call ends in [RecursionError], as the interpreter ends a recursion
    deeper than its limit. The result [None] is Python's [None]. *)
Fixpoint get_component_data (fuel : nat) (component_ref : element)
    (components_map templates_map : gmap string element)
    (gsa_dir : string) : M (option attributes) :=
  match fuel with
  | 0 => raise RecursionError
  | S fuel' =>
      let data : attributes := [] in
      let comp_link_id := get component_ref "RefLinkID" in
      match comp_link_id with
      | None => ret None
      | Some comp_link_id =>
          if negb (Str.nonempty comp_link_id) then ret None
          else
            match components_map !! comp_link_id with
            | None => ret None
            | Some component =>
                let master_link_id := get component "MasterLinkID" in
                do data <-
                  (match master_link_id with
                   | Some master =>
                       if Str.nonempty master
                          && bool_decide (is_Some (components_map !! master))
                       then
                         let master_ref := dummy_ref master in
                         do inherited <-
                           get_component_data fuel' master_ref components_map
                             templates_map gsa_dir;
                         match inherited with
                         | Some d => ret (Dict.update data d)
                         | None => raise TypeError
                         end
                       else ret data
                   | None => ret data
                   end);
                do data <-
                  lift (own_attributes comp_link_id component gsa_dir data);
                ret (Some data)
            end
      end
  end.

(** An Entity Record. *)
Record entity_data : Type := EntityData {
  ed_name : option string;
  ed_class : option string;
  ed_type : option string;
  ed_template_id : option string;
  ed_instance_id : option string;
  ed_components : list attributes
}.

(** Truth value of a dictionary: non-empty. *)
Definition nonempty_dict {K V} (d : list (K * V)) : bool :=
  match d with [] => false | _ => true end.

(** [d['name']] as a key: [KeyError] does not arise, the key is always
    there; a list is not hashable. *)
Definition name_key (comp_data : attributes) : result hkey :=
  match Dict.get "name" comp_data with
  | Some v => match key_of v with Some k => Ok k | None => Raise TypeError end
  | None => Raise TypeError
  end.

(** The two loops of [get_entity_data] over [COMPONENT] references. *)
Fixpoint collect_components (fuel : nat) (refs : list element)
    (components_map templates_map : gmap string element) (gsa_dir : string)
    (acc : list (hkey * attributes)) : M (list (hkey * attributes)) :=
  match refs with
  | [] => ret acc
  | comp_ref :: rest =>
      do comp_data <-
        get_component_data fuel comp_ref components_map templates_map gsa_dir;
      do acc1 <-
        (match comp_data with
         | Some d =>
             if nonempty_dict d then
               do k <- (name_key d, []); ret (Dict.set k d acc)
             else ret acc
         | None => ret acc
         end);
      collect_components fuel rest components_map templates_map gsa_dir acc1
  end.

(** [get_entity_data(entity, components_map, templates_map, gsa_dir)]. *)
Definition get_entity_data (fuel : nat) (entity : element)
    (components_map templates_map : gmap string element)
    (gsa_dir : string) : M (option entity_data) :=
  match get entity "MasterLinkID" with
  | None => ret None
  | Some master_link =>
      if negb (Str.nonempty master_link) then ret None
      else
        match templates_map !! master_link with
        | None => ret None
        | Some template_entity =>
            do template_components <-
              collect_components fuel (findall template_entity "COMPONENT")
                components_map templates_map gsa_dir [];
            do instance_components <-
              collect_components fuel (findall entity "COMPONENT")
                components_map templates_map gsa_dir [];
            let final_components :=
              Dict.update template_components instance_components in
            ret (Some {| ed_name := get entity "Name";
                         ed_class := get entity "Class";
                         ed_type := get entity "Type";
                         ed_template_id := get template_entity "LinkID";
                         ed_instance_id := get entity "LinkID";
                         ed_components := Dict.values final_components |})
        end
  end.

(** *** The two passes of [main]

    [iterparse] hands out the elements of the document as their end tags
    are read, children before parents. After each turn of either loop the
    element is emptied with [clear()] and its preceding siblings are
    deleted from their parent. *)

(** The children of an element when its end tag is read: a child that
    the loop has seen is empty and has nothing before it. *)
Fixpoint at_end (tags : list string) (e : element) : element :=
  match e with
  | Element t a x cs =>
      Element t a x
        ((fix settle (cs acc : list element) : list element :=
            match cs with
            | [] => acc
            | c :: r =>
                if bool_decide (tag c ∈ tags) then settle r [clear c]
                else settle r (acc ++ [at_end tags c])
            end) cs [])
  end.

(** [etree.iterparse(path, events=('end',), tag=tags)]: the elements with
    one of the tags, in the order of their end tags, each as it stands
    when the loop receives it. *)
Fixpoint end_events (tags : list string) (e : element) : list element :=
  match e with
  | Element t a x cs =>
      flat_map (end_events tags) cs
      ++ (if bool_decide (t ∈ tags) then [at_end tags e] else [])
  end.

(** The objects of the first pass. The maps hold references to element
    objects; [objects] gives what each object holds now. *)
Record link_index : Type := LinkIndex {
  component_refs : gmap string nat;
  template_refs : gmap string nat;
  objects : gmap nat element
}.

(** One turn of the first loop, on the element object [ref]. *)
Definition first_pass_step (ix : link_index) (ref : nat) (element : element)
    : link_index :=
  let objs := <[ref := element]> (objects ix) in
  let '(cm, tm) :=
    if String.eqb (tag element) "COMPONENT" then
      match get element "LinkID" with
      | Some link_id =>
          if Str.nonempty link_id
          then (<[link_id := ref]> (component_refs ix), template_refs ix)
          else (component_refs ix, template_refs ix)
      | None => (component_refs ix, template_refs ix)
      end
    else if String.eqb (tag element) "ENTITY" then
      match get element "MasterLinkID" with
      | None =>
          match get element "LinkID" with
          | Some link_id =>
              if Str.nonempty link_id
              then (component_refs ix, <[link_id := ref]> (template_refs ix))
              else (component_refs ix, template_refs ix)
          | None => (component_refs ix, template_refs ix)
          end
      | Some _ => (component_refs ix, template_refs ix)
      end
    else (component_refs ix, template_refs ix) in
  (* element.clear() *)
  let objs := <[ref := clear element]> objs in
  {| component_refs := cm; template_refs := tm; objects := objs |}.

Fixpoint first_pass_loop (ix : link_index) (ref : nat)
    (events : list element) : link_index :=
  match events with
  | [] => ix
  | element :: rest =>
      first_pass_loop (first_pass_step ix ref element) (S ref) rest
  end.

Definition first_pass (doc : element) : link_index :=
  first_pass_loop
    {| component_refs := ∅; template_refs := ∅; objects := ∅ |} 0
    (end_events ["ENTITY"; "COMPONENT"] doc).

(** A map as the second pass reads it: each reference followed to what
    its object holds. *)
Definition deref (objs : gmap nat element) (m : gmap string nat)
    : gmap string element :=
  omap (fun ref => objs !! ref) m.

Definition components_map (ix : link_index) : gmap string element :=
  deref (objects ix) (component_refs ix).
Definition templates_map (ix : link_index) : gmap string element :=
  deref (objects ix) (template_refs ix).

(** One turn of the second loop: the Entity Records it appends. *)
Definition second_pass_step (fuel : nat)
    (components_map templates_map : gmap string element) (gsa_dir : string)
    (entity : element) : M (list entity_data) :=
  match get entity "MasterLinkID" with
  | Some _ =>
      do entity_data <-
        get_entity_data fuel entity components_map templates_map gsa_dir;
      match entity_data with
      | Some ed => ret [ed]
      | None => ret []
      end
  | None => ret []
  end.

Fixpoint second_pass_loop (fuel : nat)
    (components_map templates_map : gmap string element) (gsa_dir : string)
    (entities : list element) (scene : list entity_data)
    : M (list entity_data) :=
  match entities with
  | [] => ret scene
  | entity :: rest =>
      do new <-
        second_pass_step fuel components_map templates_map gsa_dir entity;
      second_pass_loop fuel components_map templates_map gsa_dir rest
        (scene ++ new)
  end.

(** A run of [main] on a parsed document, from the first pass on: the
    scene written to the output file, if one is written, and the events
    of the run. An exception of the passes is caught and logged, and no
    file is written. *)
Definition main (fuel : nat) (doc : element) (gsa_dir : string)
    : option (list entity_data) * list event :=
  let ix := first_pass doc in
  let evs1 :=
    [Log INFO FirstPassStart;
     Log INFO (FirstPassComplete (size (component_refs ix))
                                 (size (template_refs ix)));
     Log INFO SecondPassStart] in
  match second_pass_loop fuel (components_map ix) (templates_map ix) gsa_dir
          (end_events ["ENTITY"] doc) [] with
  | (Ok scene, evs2) =>
      let unhandled := elements (unhandled_of evs2) in
      (Some scene,
       evs1 ++ evs2
       ++ [Log INFO SecondPassComplete; Log INFO WritingScene]
       ++ match unhandled with
          | [] => []
          | _ =>
              Log WARNING UnhandledHeader
              :: map (fun comp => Log WARNING (UnhandledItem comp))
                     (merge_sort (fun a b => String.leb a b) unhandled)
          end)
  | (Raise _, evs2) => (None, evs1 ++ evs2 ++ [Log ERROR UnexpectedError])
  end.

End Converter.

(** ** A reader of decimal numerals

    Closed examples need some [float]: this one reads plain decimal
    numerals (sign, digits, fraction) exactly, and refuses other text. *)
Module Decimal.

Record decimal : Type := Dec { negative : bool; digits : nat; places : nat }.

#[global] Instance decimal_eq_dec : EqDecision decimal.
Proof. solve_decision. Defined.

Definition digit (c : ascii) : option nat :=
  if (48 <=? Str.code c) && (Str.code c <=? 57)
  then Some (Str.code c - 48) else None.

(** Digits up to the end of the text, with their number. *)
Fixpoint read_digits (s : string) (acc n : nat) : option (nat * nat) :=
  match s with
  | EmptyString => Some (acc, n)
  | String c r =>
      match digit c with
      | Some d => read_digits r (10 * acc + d) (S n)
      | None => None
      end
  end.

(** Trailing zeros of the fraction are dropped. *)
Fixpoint normal (ds ps : nat) : nat * nat :=
  match ps with
  | 0 => (ds, 0)
  | S ps' => if ds mod 10 =? 0 then normal (ds / 10) ps' else (ds, ps)
  end.

Definition read_unsigned (neg : bool) (s : string) : option decimal :=
  match Str.split "." s with
  | [whole] =>
      match read_digits whole 0 0 with
      | Some (w, S _) => Some (Dec neg w 0)
      | _ => None
      end
  | [whole; frac] =>
      match read_digits (whole +:+ frac) 0 0 with
      | Some (w, S _) =>
          let '(ds, ps) := normal w (String.length frac) in
          Some (Dec neg ds ps)
      | _ => None
      end
  | _ => None
  end.

Definition read (text : string) : option decimal :=
  match Str.strip text with
  | String "-" r => read_unsigned true r
  | String "+" r => read_unsigned false r
  | s => read_unsigned false s
  end.

End Decimal.

(** ** Notions the statements use *)

Section Notions.
Context {float : Type} `{EqDecision float}.

(** The master of a component: its [MasterLinkID], where it names a
    component of the map. *)
Definition master_of (components_map : gmap string element)
    (component : element) : option string :=
  match get component "MasterLinkID" with
  | Some master =>
      if Str.nonempty master
         && bool_decide (is_Some (components_map !! master))
      then Some master else None
  | None => None
  end.

(** [chain cm id n]: from the component [id], [n] master links lead to a
    component without a master. *)
Inductive chain (components_map : gmap string element) : string -> nat -> Prop :=
  | chain_end id component :
      components_map !! id = Some component ->
      master_of components_map component = None ->
      chain components_map id 0
  | chain_step id component master n :
      components_map !! id = Some component ->
      master_of components_map component = Some master ->
      chain components_map master n ->
      chain components_map id (S n).

(** A reference that names a component of the map. *)
Definition names_component (components_map : gmap string element)
    (component_ref : element) (id : string) (component : element) : Prop :=
  get component_ref "RefLinkID" = Some id /\ id <> EmptyString
  /\ components_map !! id = Some component.

(** The component of a list that goes by the name [k]. *)
Definition component_named (k : hkey float)
    (components : list (list (string * value float)))
    : option (list (string * value float)) :=
  List.find (fun d => bool_decide (name_key d = Ok k)) components.

(** The dictionaries the references of a list resolve to, in order. *)
Definition resolved_components (py_float : string -> option float)
    (fuel : nat) (refs : list element)
    (components_map templates_map : gmap string element) (gsa_dir : string)
    : list (list (string * value float)) :=
  omap (fun ref =>
          match (get_component_data py_float fuel ref components_map
                   templates_map gsa_dir).1 with
          | Ok (Some d) => Some d
          | _ => None
          end)
       refs.

(** A dictionary of components is keyed by name when every entry has
    the name of its component for key. *)
Definition keyed (acc : list (hkey float * list (string * value float)))
    : Prop :=
  forall k d, (k, d) ∈ acc -> name_key d = Ok k.

(** An instance entity whose master link names no template. *)
Definition orphan (templates_map : gmap string element) (entity : element)
    : Prop :=
  exists master_link,
    get entity "MasterLinkID" = Some master_link
    /\ (master_link = EmptyString \/ templates_map !! master_link = None).

(** The classes the converter recognises. *)
Definition recognized (comp_class : option string) : Prop :=
  comp_class = Some "NiSceneGraphComponent"
  \/ comp_class = Some "NiTransformationComponent"
  \/ comp_class = Some "NiLightComponent"
  \/ comp_class = Some "NiCameraComponent"
  \/ comp_class = Some "NiGeneralComponent"
  \/ comp_class = Some "NiCollisionComponent".

(** The base triple of a component, written over [data]. *)
Definition base_triple (comp_link_id : string) (component : element)
    (data : list (string * value float)) : list (string * value float) :=
  Dict.set "name" (of_opt (get component "Name"))
    (Dict.set "class" (of_opt (get component "Class"))
       (Dict.set "link_id" (VStr comp_link_id) data)).

(** The part of a light property's key that one character of its name
    gives: a space gives an underscore, a parenthesis nothing, any other
    character its lower case. *)
Definition key_char (c : ascii) : string :=
  if Ascii.eqb c " " then "_"
  else if Ascii.eqb c "(" || Ascii.eqb c ")" then EmptyString
  else String (Str.lower_char c) EmptyString.

Fixpoint key_chars (name : string) : string :=
  match name with
  | EmptyString => EmptyString
  | String c r => key_char c +:+ key_chars r
  end.

(** The value a light property stands for, by its declared class; none
    where its text does not read as the numbers the class asks for. *)
Definition light_value (py_float : string -> option float) (prop : element)
    : option (value float) :=
  let prop_text :=
    if has_text prop then Str.strip (text_or_empty prop) else EmptyString in
  if bool_decide (get prop "Class" = Some "Entity Pointer") then
    Some (VList (map VStr (item_refs prop)))
  else if bool_decide (get prop "Class" = Some "Color (RGB)") then
    vfloats <$> floats_of py_float prop_text
  else if bool_decide (get prop "Class" = Some "Float") then
    VFloat <$> py_float prop_text
  else Some (VStr prop_text).

(** The entry a light property contributes: its key and its value, for
    a property with a non-empty name and a value. *)
Definition light_contribution (py_float : string -> option float)
    (prop : element) : option (string * value float) :=
  match get prop "Name" with
  | Some name =>
      if Str.nonempty name
      then (fun v => (key_chars name, v)) <$> light_value py_float prop
      else None
  | None => None
  end.

(** The entry a light component's own properties give for a key. *)
Definition light_entry (py_float : string -> option float)
    (component : element) (k : string) : option (value float) :=
  if bool_decide (get component "Class" = Some "NiLightComponent")
  then Dict.get k (parse_light py_float component).1
  else None.

End Notions.

(** A [COMPONENT] element that the first pass enters under [id], and an
    [ENTITY] element that it enters under [id] as a template. *)
Definition is_component_with (id : string) (e : element) : bool :=
  String.eqb (tag e) "COMPONENT"
  && bool_decide (get e "LinkID" = Some id) && Str.nonempty id.

Definition is_template_with (id : string) (e : element) : bool :=
  String.eqb (tag e) "ENTITY"
  && bool_decide (get e "MasterLinkID" = None)
  && bool_decide (get e "LinkID" = Some id) && Str.nonempty id.


(** The character [a] does not occur in [s]. *)
Fixpoint lacks (a : ascii) (s : string) : bool :=
  match s with
  | EmptyString => true
  | String c r => negb (Ascii.eqb c a) && lacks a r
  end.

(** The last element of a list that satisfies [p]. *)
Fixpoint last_match {A} (p : A -> bool) (l : list A) : option A :=
  match l with
  | [] => None
  | x :: r =>
      match last_match p r with
      | Some y => Some y
      | None => if p x then Some x else None
      end
  end.

(** ** Documents and maps of the examples *)

(** Component 2, "B", gives a translation; component 1, "A", has B for
    master and gives a scale only. *)
Definition comp_B : element :=
  Element "COMPONENT"
    [("LinkID", "2"); ("Class", "NiTransformationComponent"); ("Name", "B")]
    None
    [Element "PROPERTY" [("Name", "Translation"); ("Class", "Point3")]
       (Some "1,2,3") []].

Definition comp_A : element :=
  Element "COMPONENT"
    [("LinkID", "1"); ("MasterLinkID", "2");
     ("Class", "NiTransformationComponent"); ("Name", "A")]
    None
    [Element "PROPERTY" [("Name", "Scale"); ("Class", "Float")]
       (Some "0.5") []].

Definition map_AB : gmap string element :=
  <["1" := comp_A]> (<["2" := comp_B]> ∅).

(** A component that is its own master. *)
Definition comp_loop : element :=
  Element "COMPONENT"
    [("LinkID", "7"); ("MasterLinkID", "7");
     ("Class", "NiGeneralComponent"); ("Name", "Loop")]
    None [].

Definition map_loop : gmap string element := <["7" := comp_loop]> ∅.

(** A light with a property called "Name", and its master. *)
Definition comp_lamp_master : element :=
  Element "COMPONENT"
    [("LinkID", "4"); ("Class", "NiLightComponent"); ("Name", "Base")]
    None [].

Definition comp_lamp : element :=
  Element "COMPONENT"
    [("LinkID", "5"); ("MasterLinkID", "4"); ("Class", "NiLightComponent");
     ("Name", "Lamp")]
    None
    [Element "PROPERTY" [("Name", "Name"); ("Class", "String")]
       (Some "Sun") []].

Definition map_lamp : gmap string element :=
  <["5" := comp_lamp]> (<["4" := comp_lamp_master]> ∅).

(** A scene-graph component whose model lies outside any [Data] folder. *)
Definition comp_mesh : element :=
  Element "COMPONENT"
    [("LinkID", "3"); ("Class", "NiSceneGraphComponent"); ("Name", "Mesh")]
    None
    [Element "PROPERTY" [("Name", "Scene Root"); ("Class", "String")]
       (Some "model.nif") []].

Definition map_mesh : gmap string element := <["3" := comp_mesh]> ∅.

(** Two components of a class the converter does not know, and one of a
    class it passes over. *)
Definition comp_foo : element :=
  Element "COMPONENT"
    [("LinkID", "8"); ("Class", "NiFooBarComponent"); ("Name", "Foo")]
    None [].

Definition comp_wall : element :=
  Element "COMPONENT"
    [("LinkID", "9"); ("Class", "NiCollisionComponent"); ("Name", "Wall")]
    None [].

Definition map_misc : gmap string element :=
  <["8" := comp_foo]> (<["9" := comp_wall]> ∅).

(** A template whose component "Root" has scale 1.0 and an instance whose
    component "Root" has scale 2.0. *)
Definition comp_root_template : element :=
  Element "COMPONENT"
    [("LinkID", "10"); ("Class", "NiTransformationComponent");
     ("Name", "Root")]
    None
    [Element "PROPERTY" [("Name", "Scale"); ("Class", "Float")]
       (Some "1.0") []].

Definition comp_root_instance : element :=
  Element "COMPONENT"
    [("LinkID", "20"); ("Class", "NiTransformationComponent");
     ("Name", "Root")]
    None
    [Element "PROPERTY" [("Name", "Scale"); ("Class", "Float")]
       (Some "2.0") []].

Definition map_roots : gmap string element :=
  <["10" := comp_root_template]> (<["20" := comp_root_instance]> ∅).

Definition entity_template : element :=
  Element "ENTITY" [("LinkID", "100"); ("Name", "Tree")] None
    [Element "COMPONENT" [("RefLinkID", "10")] None []].

Definition entity_instance : element :=
  Element "ENTITY"
    [("LinkID", "200"); ("MasterLinkID", "100"); ("Name", "Tree 01")] None
    [Element "COMPONENT" [("RefLinkID", "20")] None []].

Definition map_templates : gmap string element :=
  <["100" := entity_template]> ∅.

(** An instance of a template that does not exist, alone in a document. *)
Definition entity_orphan : element :=
  Element "ENTITY"
    [("LinkID", "300"); ("MasterLinkID", "999"); ("Name", "Lost")] None [].

Definition doc_orphan : element := Element "GSA" [] None [entity_orphan].

(** A document with the two "Root" components, the template and its
    instance. *)
Definition doc_roots : element :=
  Element "GSA" [] None
    [comp_root_template; comp_root_instance; entity_template; entity_instance].

(** A light with the properties of a spot. *)
Definition comp_spot : element :=
  Element "COMPONENT"
    [("LinkID", "6"); ("Class", "NiLightComponent"); ("Name", "Spot")]
    None
    [Element "PROPERTY" [("Name", "Light Type"); ("Class", "String")]
       (Some " Spot ") [];
     Element "PROPERTY"
       [("Name", "Outer Spot Angle (deg.)"); ("Class", "Float")]
       (Some "45.5") [];
     Element "PROPERTY" [("Name", "Diffuse Color"); ("Class", "Color (RGB)")]
       (Some "1, 0.5") [];
     Element "PROPERTY"
       [("Name", "Affected Entities"); ("Class", "Entity Pointer")] None
       [Element "ITEM" [("RefLinkID", "200")] None []]].

(** What the examples resolve to, with the decimal reader for [float]. *)
Definition data_A : list (string * value Decimal.decimal) :=
  [("link_id", VStr "1"); ("class", VStr "NiTransformationComponent");
   ("name", VStr "A");
   ("translation",
    VList [VFloat (Decimal.Dec false 1 0); VFloat (Decimal.Dec false 2 0);
           VFloat (Decimal.Dec false 3 0)]);
   ("scale", VFloat (Decimal.Dec false 5 1))].

Definition data_B : list (string * value Decimal.decimal) :=
  [("link_id", VStr "2"); ("class", VStr "NiTransformationComponent");
   ("name", VStr "B");
   ("translation",
    VList [VFloat (Decimal.Dec false 1 0); VFloat (Decimal.Dec false 2 0);
           VFloat (Decimal.Dec false 3 0)])].

Definition data_root (id : string) (scale : nat)
    : list (string * value Decimal.decimal) :=
  [("link_id", VStr id); ("class", VStr "NiTransformationComponent");
   ("name", VStr "Root"); ("scale", VFloat (Decimal.Dec false scale 0))].

Definition data_lamp : list (string * value Decimal.decimal) :=
  [("link_id", VStr "5"); ("class", VStr "NiLightComponent");
   ("name", VStr "Sun")].

Definition data_mesh : list (string * value Decimal.decimal) :=
  [("link_id", VStr "3"); ("class", VStr "NiSceneGraphComponent");
   ("name", VStr "Mesh"); ("unreal_path", VNone);
   ("nif_path_rel", VStr "model.nif")].

Definition data_foo : list (string * value Decimal.decimal) :=
  [("link_id", VStr "8"); ("class", VStr "NiFooBarComponent");
   ("name", VStr "Foo")].

Definition data_wall : list (string * value Decimal.decimal) :=
  [("link_id", VStr "9"); ("class", VStr "NiCollisionComponent");
   ("name", VStr "Wall")].

(** ** Notions for the further properties *)

Section MoreNotions.
Context {float : Type}.

(** An entity whose master link names a template of the map. *)
Definition resolvable (templates_map : gmap string element)
    (entity : element) : bool :=
  match get entity "MasterLinkID" with
  | Some master_link =>
      Str.nonempty master_link
      && bool_decide (is_Some (templates_map !! master_link))
  | None => false
  end.

(** A map all of whose elements have lost attributes, text and
    children. *)
Definition emptied (m : gmap string element) : Prop :=
  forall id e,
    m !! id = Some e -> attrib e = [] /\ text e = None /\ children e = [].

(** The dictionary of a component of which only the link identifier is
    known. *)
Definition bare (comp_link_id : string) : list (string * value float) :=
  [("link_id", VStr comp_link_id); ("class", VNone); ("name", VNone)].

(** The identifiers of the references of a list that name a component of
    the map, in order. *)
Definition resolving_ids (components_map : gmap string element)
    (refs : list element) : list string :=
  omap (fun ref =>
          match get ref "RefLinkID" with
          | Some id =>
              if Str.nonempty id
                 && bool_decide (is_Some (components_map !! id))
              then Some id else None
          | None => None
          end)
       refs.

(** The entry of a key along the chain of masters of a component: that
    of the nearest component of the chain that gives the key, looking at
    most [depth] components far. *)
Fixpoint nearest_entry (py_float : string -> option float)
    (components_map : gmap string element) (gsa_dir : string)
    (depth : nat) (id : string) (k : string) : option (value float) :=
  match depth with
  | 0 => None
  | S depth' =>
      match components_map !! id with
      | Some component =>
          match Dict.get k
                  (own_attributes py_float id component gsa_dir []).1 with
          | Some v => Some v
          | None =>
              match master_of components_map component with
              | Some master =>
                  nearest_entry py_float components_map gsa_dir depth'
                    master k
              | None => None
              end
          end
      | None => None
      end
  end.

(** A record without template identifier, and with no component or one
    that has the link identifier alone. *)
Definition hollow_record (record : @entity_data float) : Prop :=
  ed_template_id record = None
  /\ (ed_components record = []
      \/ exists id, ed_components record = [bare id]).

End MoreNotions.

(** The inner loop of [at_end], by name: the children left of [cs] after
    the turns of the loop on those with one of the tags, [acc] being the
    children left so far. *)
Section Settle.
Variable tags : list string.

Fixpoint settle (cs acc : list element) : list element :=
  match cs with
  | [] => acc
  | c :: r =>
      if bool_decide (tag c ∈ tags) then settle r [clear c]
      else settle r (acc ++ [at_end tags c])
  end.

End Settle.

(** The elements of a list with their positions, from [n] on. *)
Fixpoint numbered {A} (n : nat) (l : list A) : list (nat * A) :=
  match l with
  | [] => []
  | x :: r => (n, x) :: numbered (S n) r
  end.

(** A light whose property "Name" is a list of references, and an
    entity that refers to it. *)
Definition comp_beacon : element :=
  Element "COMPONENT"
    [("LinkID", "30"); ("Class", "NiLightComponent"); ("Name", "Beacon")]
    None
    [Element "PROPERTY" [("Name", "Name"); ("Class", "Entity Pointer")] None
       [Element "ITEM" [("RefLinkID", "200")] None []]].

Definition map_beacon : gmap string element := <["30" := comp_beacon]> ∅.

Definition entity_beacon : element :=
  Element "ENTITY"
    [("LinkID", "400"); ("MasterLinkID", "100"); ("Name", "Tower")] None
    [Element "COMPONENT" [("RefLinkID", "30")] None []].

Definition data_beacon : list (string * value Decimal.decimal) :=
  [("link_id", VStr "30"); ("class", VStr "NiLightComponent");
   ("name", VList [VStr "200"])].

(** A scene-graph component whose "Scene Root" has no text, beside a
    "NIF File Path" that has one. *)
Definition comp_hollow : element :=
  Element "COMPONENT"
    [("LinkID", "40"); ("Class", "NiSceneGraphComponent"); ("Name", "Hull")]
    None
    [Element "PROPERTY" [("Name", "NIF File Path")] (Some "a.nif") [];
     Element "PROPERTY" [("Name", "Scene Root")] None []].

Definition map_hollow : gmap string element := <["40" := comp_hollow]> ∅.

Definition data_hollow : list (string * value Decimal.decimal) :=
  [("link_id", VStr "40"); ("class", VStr "NiSceneGraphComponent");
   ("name", VStr "Hull")].

(** A template with the components "Root" and "Body", and an instance
    with a "Tail" and then a "Root" of its own. *)
Definition comp_named (id name : string) : element :=
  Element "COMPONENT"
    [("LinkID", id); ("Class", "NiGeneralComponent"); ("Name", name)] None [].

Definition map_parts : gmap string element :=
  <["10" := comp_named "10" "Root"]>
    (<["11" := comp_named "11" "Body"]>
       (<["20" := comp_named "20" "Root"]>
          (<["21" := comp_named "21" "Tail"]> ∅))).

Definition ref_to (id : string) : element :=
  Element "COMPONENT" [("RefLinkID", id)] None [].

Definition entity_parts_template : element :=
  Element "ENTITY" [("LinkID", "100"); ("Name", "Cat")] None
    [ref_to "10"; ref_to "11"].

Definition entity_parts_instance : element :=
  Element "ENTITY"
    [("LinkID", "201"); ("MasterLinkID", "100"); ("Name", "Cat 01")] None
    [ref_to "21"; ref_to "20"].

Definition map_parts_templates : gmap string element :=
  <["100" := entity_parts_template]> ∅.

Definition data_named (id name : string)
    : list (string * value Decimal.decimal) :=
  [("link_id", VStr id); ("class", VStr "NiGeneralComponent");
   ("name", VStr name)].

(** An instance with a reference before a nested entity and one after. *)
Definition entity_nested : element :=
  Element "ENTITY" [("LinkID", "500"); ("MasterLinkID", "100")] None
    ([ref_to "10"]
     ++ Element "ENTITY" [("LinkID", "501"); ("MasterLinkID", "100")] None []
     :: [ref_to "11"]).

(** ** The file as a whole

    A parsed file is more than its root element: comments and processing
    instructions may stand before the root. They are the root's preceding
    siblings for [getprevious()], while [getparent()] of the root is
    [None]. *)
Record document : Type := Document {
  prolog : nat;      (* the comments and processing instructions before the root *)
  root : element
}.

(** Lines 267-268 (and 282-283) at the end of the root element:
      while element.getprevious() is not None:
          del element.getparent()[0]
    With nothing before the root the loop does not turn; with a node
    before it the first turn is [del None[0]], a [TypeError]. *)
Definition release_root (prolog : nat) : result unit :=
  match prolog with
  | 0 => Ok tt
  | S _ => Raise TypeError
  end.

(** The release of the root in a pass that receives the elements with one
    of [tags]: the lines are reached for the root when its tag is one of
    them. *)
Definition release (tags : list string) (d : document) : result unit :=
  if bool_decide (tag (root d) ∈ tags) then release_root (prolog d)
  else Ok tt.

Section Run.
Context {float : Type} `{EqDecision float}.
Variable py_float : string -> option float.

(** A run of [main] on a parsed file, lines 251-304. The root is the last
    element the first pass receives, and the pass logs nothing in its
    loop: when the release of the root raises, the exception is caught
    after the first message, and no file is written. Otherwise the run is
    that of [main] on the root; the second pass receives the root only
    if the first has, so its release of the root raises nothing then. *)
Definition run (fuel : nat) (d : document) (gsa_dir : string)
    : option (list (@entity_data float)) * list event :=
  match release ["ENTITY"; "COMPONENT"] d with
  | Raise _ => (None, [Log INFO FirstPassStart; Log ERROR UnexpectedError])
  | Ok _ => main py_float fuel (root d) gsa_dir
  end.

End Run.

(** A file whose root is an instance entity, with a comment before it. *)
Definition file_commented_root : document :=
  Document 1 (Element "ENTITY" [("LinkID", "1"); ("MasterLinkID", "2")] None []).

(** The document of the templates example, with and without a comment
    before its root. *)
Definition file_roots (prolog : nat) : document := Document prolog doc_roots.

(** * Properties *)

(** ** Dictionaries *)
Section DictFacts.
Context {K V : Type} `{EqDecision K}.
Implicit Types (d : list (K * V)) (k : K) (v : V).

Lemma dict_get_set_eq k v d : Dict.get k (Dict.set k v d) = Some v.
Proof.
  induction d as [|[k' v'] d IH]; simpl; repeat (case_decide; simpl);
    congruence.
Qed.

Lemma dict_get_set_ne k k' v d :
  k ≠ k' → Dict.get k' (Dict.set k v d) = Dict.get k' d.
Proof.
  intros Hne. induction d as [|[k0 v0] d IH]; simpl;
    repeat (case_decide; simpl); congruence.
Qed.

Lemma dict_get_set k k' v d :
  Dict.get k' (Dict.set k v d)
  = if decide (k = k') then Some v else Dict.get k' d.
Proof.
  destruct (decide (k = k')) as [->|Hne];
    [apply dict_get_set_eq | by apply dict_get_set_ne].
Qed.

Lemma dict_get_None k d : k ∉ Dict.keys d → Dict.get k d = None.
Proof.
  induction d as [|[k' v'] d IH]; simpl; [done|].
  intros Hk. apply not_elem_of_cons in Hk as [Hne Hk].
  case_decide; [congruence | by apply IH].
Qed.

Lemma dict_keys_set k v d :
  Dict.keys (Dict.set k v d)
  = if decide (k ∈ Dict.keys d) then Dict.keys d else Dict.keys d ++ [k].
Proof.
  induction d as [|[k' v'] d IH].
  - destruct (decide (k ∈ Dict.keys [])) as [Hin|_]; [|done].
    by apply elem_of_nil in Hin.
  - cbn [Dict.set]. destruct (decide (k' = k)) as [->|Hne].
    + destruct (decide (k ∈ Dict.keys ((k, v') :: d))) as [_|Hin]; [done|].
      exfalso. apply Hin, elem_of_cons. by left.
    + unfold Dict.keys in *. cbn [map fst]. rewrite IH.
      destruct (decide (k ∈ map fst d)) as [Hin|Hnin];
        destruct (decide (k ∈ k' :: map fst d)) as [Hin'|Hnin']; try done.
      * exfalso. apply Hnin', elem_of_cons. by right.
      * apply elem_of_cons in Hin' as [?|?]; congruence.
Qed.

Lemma dict_wf_nil : Dict.wf (@nil (K * V)).
Proof. apply NoDup_nil_2. Qed.

Lemma dict_wf_set k v d : Dict.wf d → Dict.wf (Dict.set k v d).
Proof.
  unfold Dict.wf. intros Hwf. rewrite dict_keys_set.
  destruct (decide (k ∈ Dict.keys d)); [done|].
  apply NoDup_app. split_and!; [done| |apply NoDup_singleton].
  intros x Hx ->%list_elem_of_singleton. done.
Qed.

Lemma dict_wf_update d d2 : Dict.wf d → Dict.wf (Dict.update d d2).
Proof.
  unfold Dict.update. revert d.
  induction d2 as [|[k v] d2 IH]; simpl; [done|].
  intros d Hwf. apply IH. by apply dict_wf_set.
Qed.

(** [d.update(d2)] read key by key: the entry of [d2] where there is one,
    that of [d] otherwise. *)
Lemma dict_get_update k d d2 :
  Dict.wf d2 →
  Dict.get k (Dict.update d d2)
  = match Dict.get k d2 with Some v => Some v | None => Dict.get k d end.
Proof.
  unfold Dict.update, Dict.wf. revert d.
  induction d2 as [|[k2 v2] d2 IH]; simpl; [done|].
  intros d [Hnin Hnd]%NoDup_cons. rewrite IH; [|done].
  destruct (decide (k2 = k)) as [->|Hne].
  - rewrite dict_get_None; [|done]. apply dict_get_set_eq.
  - destruct (Dict.get k d2); [done|]. by apply dict_get_set_ne.
Qed.

(** Updating the empty dictionary copies the other one. *)
Lemma dict_update_nil d2 : Dict.wf d2 → Dict.update [] d2 = d2.
Proof.
  assert (Hgen : ∀ d d2 : list (K * V),
             NoDup (Dict.keys (d ++ d2)) → Dict.update d d2 = d ++ d2).
  { clear d2. intros d d2. revert d.
    induction d2 as [|[k v] d2 IH]; intros d Hnd; simpl.
    - by rewrite app_nil_r.
    - assert (Hset : Dict.set k v d = d ++ [(k, v)]).
      { clear IH. induction d as [|[k' v'] d IHd]; simpl; [done|].
        simpl in Hnd. apply NoDup_cons in Hnd as [Hk' Hnd].
        case_decide as Hk; [|by rewrite IHd].
        subst k'. exfalso. apply Hk'. unfold Dict.keys. rewrite map_app.
        apply elem_of_app. right. simpl. apply elem_of_cons. by left. }
      unfold Dict.update in *. simpl. rewrite Hset.
      rewrite IH; [by rewrite <- app_assoc|]. by rewrite <- app_assoc. }
  intros Hwf. by apply (Hgen []).
Qed.

Lemma dict_set_elem k k0 v v0 d0 :
  (k, v) ∈ Dict.set k0 v0 d0 -> (k, v) = (k0, v0) \/ (k, v) ∈ d0.
Proof.
  induction d0 as [|[k' v'] d0 IH]; simpl.
  - intros ->%list_elem_of_singleton. by left.
  - case_decide; intros [?|?]%elem_of_cons; try (by left).
    + right. apply elem_of_cons. by right.
    + right. apply elem_of_cons. by left.
    + destruct IH as [?|?]; [done|by left|].
      right. apply elem_of_cons. by right.
Qed.

Lemma dict_update_elem k v d0 d2 :
  (k, v) ∈ Dict.update d0 d2 -> (k, v) ∈ d0 \/ (k, v) ∈ d2.
Proof.
  unfold Dict.update. revert d0.
  induction d2 as [|[k2 v2] d2 IH]; intros d0; simpl; [by left|].
  intros [Hin|Hin]%IH.
  - apply dict_set_elem in Hin as [->|?]; [|by left].
    right. apply elem_of_cons. by left.
  - right. apply elem_of_cons. by right.
Qed.

End DictFacts.

(** ** The converter *)
Section ConverterFacts.
Context {float : Type} `{EqDecision float}.
Variable py_float : string -> option float.
#[local] Abbreviation value := (value float).
#[local] Abbreviation attributes := (list (string * value)).
Implicit Types (d data : attributes) (component c : element)
  (cm tm : gmap string element) (evs : list event).

(** *** The effect layer *)

Lemma bind_ok {A B} (a : A) evs (f : A -> M B) :
  bind (Ok a, evs) f = ((f a).1, evs ++ (f a).2).
Proof. unfold bind. by destruct (f a). Qed.

(** *** Every dictionary the converter builds has distinct keys *)

Ltac step_wf :=
  repeat case_match; simpl; try done; try (by apply dict_wf_set).

Lemma read_translation_wf c d :
  Dict.wf d -> Dict.wf (read_translation py_float c d).1.
Proof. intros Hwf. unfold read_translation. step_wf. Qed.

Lemma read_rotation_wf c d :
  Dict.wf d -> Dict.wf (read_rotation py_float c d).1.
Proof. intros Hwf. unfold read_rotation. step_wf. Qed.

Lemma read_scale_wf c d :
  Dict.wf d -> Dict.wf (read_scale py_float c d).1.
Proof. intros Hwf. unfold read_scale. step_wf. Qed.

Lemma parse_transform_wf c : Dict.wf (parse_transform py_float c).1.
Proof.
  unfold parse_transform.
  pose proof (read_translation_wf c [] dict_wf_nil) as H1.
  destruct (read_translation py_float c []) as [t1 e1].
  pose proof (read_rotation_wf c t1 H1) as H2.
  destruct (read_rotation py_float c t1) as [t2 e2].
  pose proof (read_scale_wf c t2 H2) as H3.
  by destruct (read_scale py_float c t2) as [t3 e3].
Qed.

Lemma light_step_wf d prop :
  Dict.wf d -> Dict.wf (light_step py_float d prop).1.
Proof. intros Hwf. unfold light_step. step_wf. Qed.

Lemma light_loop_wf props d :
  Dict.wf d -> Dict.wf (light_loop py_float props d).1.
Proof.
  revert d. induction props as [|prop props IH]; intros d Hwf; simpl; [done|].
  pose proof (light_step_wf d prop Hwf) as H1.
  destruct (light_step py_float d prop) as [d1 e1].
  pose proof (IH d1 H1) as H2.
  by destruct (light_loop py_float props d1).
Qed.

Lemma parse_light_wf c : Dict.wf (parse_light py_float c).1.
Proof. apply light_loop_wf, dict_wf_nil. Qed.

Lemma base_triple_wf id c d :
  Dict.wf d -> Dict.wf (base_triple id c d).
Proof. intros. unfold base_triple. by repeat apply dict_wf_set. Qed.

Lemma own_attributes_wf id c dir d :
  Dict.wf d -> Dict.wf (own_attributes py_float id c dir d).1.
Proof.
  intros Hwf. pose proof (base_triple_wf id c d Hwf) as Hb.
  unfold base_triple in Hb. unfold own_attributes.
  repeat case_match; simpl; try done;
    try (by apply dict_wf_update); by repeat apply dict_wf_set.
Qed.

(** *** The own attributes of a component lie over the inherited ones *)

Lemma own_attributes_overlay id c dir d k :
  Dict.get k (own_attributes py_float id c dir d).1
  = match Dict.get k (own_attributes py_float id c dir []).1 with
    | Some v => Some v
    | None => Dict.get k d
    end.
Proof.
  unfold own_attributes.
  destruct (bool_decide (get c "Class" = Some "NiTransformationComponent")).
  { pose proof (parse_transform_wf c) as Hwf.
    destruct (parse_transform py_float c) as [t e]. simpl in *.
    rewrite !dict_get_update by done. destruct (Dict.get k t); [done|].
    rewrite !dict_get_set. simpl. repeat case_decide; subst; congruence. }
  destruct (bool_decide (get c "Class" = Some "NiSceneGraphComponent")).
  { destruct (scene_root_property c) as [prop|]; [destruct (has_text prop)|].
    - destruct (get_unreal_asset_path _ dir) as [u e]. simpl.
      rewrite !dict_get_set. simpl. repeat case_decide; subst; congruence.
    - simpl. rewrite !dict_get_set. simpl. repeat case_decide; subst; congruence.
    - simpl. rewrite !dict_get_set. simpl. repeat case_decide; subst; congruence. }
  destruct (bool_decide (get c "Class" = Some "NiLightComponent")).
  { pose proof (parse_light_wf c) as Hwf.
    destruct (parse_light py_float c) as [t e]. simpl in *.
    rewrite !dict_get_update by done. destruct (Dict.get k t); [done|].
    rewrite !dict_get_set. simpl. repeat case_decide; subst; congruence. }
  destruct (negb (passed_over (get c "Class"))); simpl;
    rewrite !dict_get_set; simpl; repeat case_decide; subst; congruence.
Qed.

(** *** One call of [get_component_data], by cases *)

Lemma get_component_data_unresolved fuel ref cm tm dir :
  (forall id c, ~ names_component cm ref id c) ->
  get_component_data py_float (S fuel) ref cm tm dir = (Ok None, []).
Proof.
  intros Hno. cbn [get_component_data].
  destruct (get ref "RefLinkID") as [id|] eqn:Hid; [|done].
  destruct id as [|a id']; [done|]. simpl.
  destruct (cm !! String a id') as [c|] eqn:Hc; [|done].
  exfalso. by apply (Hno (String a id') c).
Qed.

Lemma get_component_data_no_master fuel ref cm tm dir id c :
  names_component cm ref id c -> master_of cm c = None ->
  get_component_data py_float (S fuel) ref cm tm dir
  = (Ok (Some (own_attributes py_float id c dir []).1),
     (own_attributes py_float id c dir []).2).
Proof.
  intros (Hid & Hne & Hc) Hm. cbn [get_component_data].
  rewrite Hid. destruct id as [|a id']; [done|]. cbn [Str.nonempty negb].
  rewrite Hc. unfold master_of in Hm.
  destruct (get c "MasterLinkID") as [m|].
  - destruct (Str.nonempty m && bool_decide (is_Some (cm !! m))); [done|].
    unfold ret, lift. by rewrite !bind_ok, app_nil_r.
  - unfold ret, lift. by rewrite !bind_ok, app_nil_r.
Qed.

Lemma get_component_data_master fuel ref cm tm dir id c m :
  names_component cm ref id c -> master_of cm c = Some m ->
  get_component_data py_float (S fuel) ref cm tm dir
  = match get_component_data py_float fuel (dummy_ref m) cm tm dir with
    | (Ok (Some md), evs) =>
        (Ok (Some (own_attributes py_float id c dir (Dict.update [] md)).1),
         evs ++ (own_attributes py_float id c dir (Dict.update [] md)).2)
    | (Ok None, evs) => (Raise TypeError, evs)
    | (Raise e, evs) => (Raise e, evs)
    end.
Proof.
  intros (Hid & Hne & Hc) Hm. cbn [get_component_data].
  rewrite Hid. destruct id as [|a id']; [done|]. cbn [Str.nonempty negb].
  rewrite Hc. unfold master_of in Hm.
  destruct (get c "MasterLinkID") as [m'|]; [|done].
  destruct (Str.nonempty m' && bool_decide (is_Some (cm !! m'))); [|done].
  injection Hm as ->.
  destruct (get_component_data py_float fuel (dummy_ref m) cm tm dir)
    as [[[md|]|e] evs].
  - unfold ret, lift. rewrite !bind_ok. simpl. by rewrite !app_nil_r.
  - unfold raise. rewrite bind_ok. simpl. by rewrite app_nil_r.
  - done.
Qed.

Lemma master_of_Some cm c m :
  master_of cm c = Some m ->
  get c "MasterLinkID" = Some m /\ m <> EmptyString
  /\ exists c', cm !! m = Some c'.
Proof.
  unfold master_of. destruct (get c "MasterLinkID") as [m'|]; [|done].
  destruct (Str.nonempty m') eqn:Hne; simpl; [|done].
  case_bool_decide as Hin; [|done]. intros [= ->].
  split_and!; [done| |done]. by intros ->.
Qed.

Lemma dummy_ref_names cm m c' :
  m <> EmptyString -> cm !! m = Some c' ->
  names_component cm (dummy_ref m) m c'.
Proof. by intros. Qed.

(** A reference names a component of the map, or none. *)
Lemma names_component_cases cm ref :
  (exists id c, names_component cm ref id c)
  \/ (forall id c, ~ names_component cm ref id c).
Proof.
  unfold names_component.
  destruct (get ref "RefLinkID") as [id|] eqn:Hid;
    [|right; by intros ?? (? & _)].
  destruct (decide (id = EmptyString)) as [->|Hne];
    [right; intros ?? (? & ? & _); congruence|].
  destruct (cm !! id) as [c|] eqn:Hc.
  - left. by exists id, c.
  - right. intros ?? (? & ? & ?). congruence.
Qed.

Lemma names_component_inj cm ref id c id' c' :
  names_component cm ref id c -> names_component cm ref id' c' ->
  id = id' /\ c = c'.
Proof.
  intros (H1 & _ & H2) (H1' & _ & H2').
  assert (id = id') as -> by congruence. split; congruence.
Qed.

(** What a call returns is a dictionary, and every call is of one of
    the two shapes: no master, or a master resolved first. *)
Lemma get_component_data_inv fuel ref cm tm dir d evs :
  get_component_data py_float fuel ref cm tm dir = (Ok (Some d), evs) ->
  Dict.wf d
  /\ exists id c md evs_m,
      names_component cm ref id c
      /\ Dict.wf md
      /\ d = (own_attributes py_float id c dir md).1
      /\ evs = evs_m ++ (own_attributes py_float id c dir md).2
      /\ ((master_of cm c = None /\ md = [] /\ evs_m = [])
          \/ (exists m fuel',
                fuel = S fuel' /\ master_of cm c = Some m
                /\ get_component_data py_float fuel' (dummy_ref m) cm tm dir
                   = (Ok (Some md), evs_m))).
Proof.
  revert ref d evs.
  induction fuel as [|fuel IH]; intros ref d evs Hrun; [done|].
  destruct (names_component_cases cm ref) as [(id & c & Hn)|Hno];
    [|by rewrite get_component_data_unresolved in Hrun].
  destruct (master_of cm c) as [m|] eqn:Hm.
  - rewrite (get_component_data_master _ _ _ _ _ _ _ _ Hn Hm) in Hrun.
    destruct (get_component_data py_float fuel (dummy_ref m) cm tm dir)
      as [[[md|]|e] evs_m] eqn:Hmaster; [|done|done].
    apply IH in Hmaster as Hinv. destruct Hinv as [Hwf _].
    rewrite dict_update_nil in Hrun by done. injection Hrun as <- <-.
    split; [by apply own_attributes_wf|].
    exists id, c, md, evs_m. split_and!; try done.
    right. by exists m, fuel.
  - rewrite (get_component_data_no_master _ _ _ _ _ _ _ Hn Hm) in Hrun.
    injection Hrun as <- <-.
    split; [apply own_attributes_wf, dict_wf_nil|].
    exists id, c, [], []. split_and!; try done; [apply dict_wf_nil|].
    by left.
Qed.

(** *** Termination *)

(** With a finite chain of masters and more fuel than the chain is long,
    the call returns a dictionary. *)
Lemma get_component_data_chain cm tm dir n :
  forall id ref c fuel,
    names_component cm ref id c -> chain cm id n -> n < fuel ->
    exists d evs,
      get_component_data py_float fuel ref cm tm dir = (Ok (Some d), evs).
Proof.
  induction n as [|n IH]; intros id ref c fuel Hn Hchain Hfuel;
    (destruct fuel as [|fuel]; [lia|]); inversion Hchain as [? c' Hc Hm|? c' m ? Hc Hm Hrest];
    subst; destruct Hn as (Hid & Hne & Hc0);
    assert (c' = c) as -> by congruence.
  - rewrite (get_component_data_no_master _ _ _ _ _ id c); [eauto|done|done].
  - rewrite (get_component_data_master _ _ _ _ _ id c m); [|done|done].
    apply master_of_Some in Hm as Hm'. destruct Hm' as (_ & Hmne & c' & Hc').
    destruct (IH m (dummy_ref m) c' fuel) as (md & evs & ->);
      [by apply dummy_ref_names|done|lia|].
    eauto.
Qed.

(** With no finite chain of masters, the call ends in [RecursionError],
    whatever the fuel. *)
Lemma get_component_data_endless cm tm dir fuel :
  forall id ref c,
    names_component cm ref id c -> (forall n, ~ chain cm id n) ->
    get_component_data py_float fuel ref cm tm dir = (Raise RecursionError, []).
Proof.
  induction fuel as [|fuel IH]; intros id ref c Hn Hno; [done|].
  destruct (master_of cm c) as [m|] eqn:Hm.
  - rewrite (get_component_data_master _ _ _ _ _ id c m); [|done|done].
    apply master_of_Some in Hm as Hm'. destruct Hm' as (_ & Hmne & c' & Hc').
    rewrite (IH m (dummy_ref m) c'); [done|by apply dummy_ref_names|].
    intros n Hchain. apply (Hno (S n)).
    destruct Hn as (_ & _ & Hc). by eapply chain_step.
  - exfalso. apply (Hno 0). destruct Hn as (_ & _ & Hc). by eapply chain_end.
Qed.

(** More fuel does not change what a call returns. *)
Lemma get_component_data_mono fuel :
  forall ref cm tm dir r evs fuel',
    get_component_data py_float fuel ref cm tm dir = (Ok r, evs) ->
    fuel <= fuel' ->
    get_component_data py_float fuel' ref cm tm dir = (Ok r, evs).
Proof.
  induction fuel as [|fuel IH]; intros ref cm tm dir r evs fuel' Hrun Hle;
    [done|].
  destruct fuel' as [|fuel']; [lia|].
  destruct (names_component_cases cm ref) as [(id & c & Hn)|Hno].
  2: { rewrite get_component_data_unresolved in Hrun by done.
       by rewrite get_component_data_unresolved. }
  destruct (master_of cm c) as [m|] eqn:Hm.
  - rewrite (get_component_data_master fuel _ _ _ _ _ _ _ Hn Hm) in Hrun.
    rewrite (get_component_data_master fuel' _ _ _ _ _ _ _ Hn Hm).
    destruct (get_component_data py_float fuel (dummy_ref m) cm tm dir)
      as [[[md|]|e] evs_m] eqn:Hmaster; [|done|done].
    rewrite (IH _ _ _ _ _ _ fuel' Hmaster); [done|lia].
  - rewrite (get_component_data_no_master fuel _ _ _ _ _ _ Hn Hm) in Hrun.
    by rewrite (get_component_data_no_master fuel' _ _ _ _ _ _ Hn Hm).
Qed.

(** The events of the own part do not depend on what was inherited. *)
Lemma own_attributes_events id c dir d :
  (own_attributes py_float id c dir d).2
  = (own_attributes py_float id c dir []).2.
Proof. unfold own_attributes. by repeat case_match. Qed.

(** C3, as the code has it. Resolving a component reference returns
    whenever the chain of master links that starts at the referenced
    component is finite: a reference that names no component gives [None]
    at once, and a chain of [n] links gives a dictionary with any recursion
    depth above [n]. Nothing detects a cycle: on a chain that never ends the
    recursion is followed until the depth runs out, whatever the depth. *)
Theorem resolution_returns_on_finite_chains ref cm tm dir :
  ((forall id c, ~ names_component cm ref id c) ->
   forall fuel,
     get_component_data py_float (S fuel) ref cm tm dir = (Ok None, []))
  /\ (forall id c n fuel,
        names_component cm ref id c -> chain cm id n -> n < fuel ->
        exists d evs,
          get_component_data py_float fuel ref cm tm dir = (Ok (Some d), evs))
  /\ (forall id c fuel,
        names_component cm ref id c -> (forall n, ~ chain cm id n) ->
        get_component_data py_float fuel ref cm tm dir
        = (Raise RecursionError, [])).
Proof.
  split_and!.
  - intros Hno fuel. by apply get_component_data_unresolved.
  - intros id c n fuel Hn Hchain Hfuel. by eapply get_component_data_chain.
  - intros id c fuel Hn Hno. by eapply get_component_data_endless.
Qed.

(** C2. Where the master link of a component names a component of the
    map, the master's data is computed first (its events come first), and
    the component's own attributes are laid over it key by key: a key the
    component gives has the component's value, any other key keeps the
    master's. With B giving translation 1,2,3 and A, whose master is B,
    giving scale 0.5 only, the data of A has both. *)
Theorem master_merge_is_by_attribute :
  (forall fuel ref cm tm dir id c m md evs_m,
      names_component cm ref id c -> master_of cm c = Some m ->
      get_component_data py_float fuel (dummy_ref m) cm tm dir
      = (Ok (Some md), evs_m) ->
      let own := own_attributes py_float id c dir [] in
      exists d,
        get_component_data py_float (S fuel) ref cm tm dir
        = (Ok (Some d), evs_m ++ own.2)
        /\ forall k,
            Dict.get k d
            = match Dict.get k own.1 with
              | Some v => Some v
              | None => Dict.get k md
              end)
  /\ (forall f1 f2 f3 fs fuel,
        py_float "1" = Some f1 -> py_float "2" = Some f2 ->
        py_float "3" = Some f3 -> py_float "0.5" = Some fs ->
        2 <= fuel ->
        exists d evs,
          get_component_data py_float fuel (dummy_ref "1") map_AB ∅ "maps"
          = (Ok (Some d), evs)
          /\ Dict.get "translation" d
             = Some (VList [VFloat f1; VFloat f2; VFloat f3])
          /\ Dict.get "scale" d = Some (VFloat fs)).
Proof.
  split.
  - intros fuel ref cm tm dir id c m md evs_m Hn Hm Hmaster own.
    rewrite (get_component_data_master _ _ _ _ _ _ _ _ Hn Hm), Hmaster.
    apply get_component_data_inv in Hmaster as [Hwf _].
    rewrite dict_update_nil by done.
    eexists. split.
    + by rewrite own_attributes_events.
    + intros k. apply own_attributes_overlay.
  - intros f1 f2 f3 fs fuel H1 H2 H3 Hs Hfuel.
    assert (Hrun : get_component_data py_float 2 (dummy_ref "1") map_AB ∅ "maps"
                   = (Ok (Some [("link_id", VStr "1");
                                ("class", VStr "NiTransformationComponent");
                                ("name", VStr "A");
                                ("translation",
                                 VList [VFloat f1; VFloat f2; VFloat f3]);
                                ("scale", VFloat fs)]), [])).
    { vm_compute. rewrite H1, H2, H3. vm_compute. rewrite Hs. reflexivity. }
    eexists _, _. split; [by apply (get_component_data_mono 2)|].
    by split.
Qed.

(** *** What the parsers add to the set, and which keys they write *)

Lemma added_app evs1 evs2 : added (evs1 ++ evs2) = added evs1 ++ added evs2.
Proof. apply omap_app. Qed.

Lemma get_unreal_asset_path_added p dir :
  added (get_unreal_asset_path p dir).2 = [].
Proof. unfold get_unreal_asset_path. by repeat case_match. Qed.

Lemma parse_transform_added c : added (parse_transform py_float c).2 = [].
Proof.
  unfold parse_transform, read_translation, read_rotation, read_scale.
  repeat case_match; simplify_eq; done.
Qed.

Lemma light_loop_added props d :
  added (light_loop py_float props d).2 = [].
Proof.
  revert d. induction props as [|prop props IH]; intros d; simpl; [done|].
  destruct (light_step py_float d prop) as [d1 e1] eqn:Hstep.
  specialize (IH d1). destruct (light_loop py_float props d1) as [d2 e2].
  simpl in *. rewrite added_app, IH, app_nil_r.
  unfold light_step in Hstep. by repeat case_match; simplify_eq.
Qed.

Lemma parse_light_added c : added (parse_light py_float c).2 = [].
Proof. apply light_loop_added. Qed.

Lemma parse_transform_get c k :
  k <> "translation" -> k <> "rotation" -> k <> "scale" ->
  Dict.get k (parse_transform py_float c).1 = None.
Proof.
  intros H1 H2 H3.
  unfold parse_transform, read_translation, read_rotation, read_scale.
  repeat case_match; simplify_eq; simpl;
    rewrite ?dict_get_set; repeat case_decide; simpl; congruence.
Qed.

Lemma own_attributes_recognized id c dir d :
  recognized (get c "Class") ->
  added (own_attributes py_float id c dir d).2 = [].
Proof.
  intros Hrec. unfold own_attributes.
  case_bool_decide as Ht.
  { pose proof (parse_transform_added c).
    by destruct (parse_transform py_float c). }
  case_bool_decide as Hs.
  { repeat case_match; simplify_eq; try done.
    all: match goal with
    | H : get_unreal_asset_path ?p ?g = _ |- _ =>
        pose proof (get_unreal_asset_path_added p g) as Ha; by rewrite H in Ha
    end. }
  case_bool_decide as Hl.
  { pose proof (parse_light_added c). by destruct (parse_light py_float c). }
  unfold passed_over. unfold recognized in Hrec.
  repeat case_bool_decide; simpl; try done.
  destruct Hrec as [?|[?|[?|[?|[?|?]]]]]; congruence.
Qed.

Lemma own_attributes_unrecognized id c dir d :
  ~ recognized (get c "Class") ->
  own_attributes py_float id c dir d
  = (base_triple id c d,
     [AddUnhandled (fmt (get c "Class") +:+ "::" +:+ fmt (get c "Name"))]).
Proof.
  intros Hrec. unfold own_attributes, passed_over, recognized in *.
  repeat case_bool_decide; simpl; try done; exfalso; apply Hrec; tauto.
Qed.

(** The three base keys after the own part: the component's own values,
    or what a light's property of that name gives. *)
Lemma own_attributes_base id c dir d k :
  k = "link_id" \/ k = "class" \/ k = "name" ->
  Dict.get k (own_attributes py_float id c dir d).1
  = match light_entry py_float c k with
    | Some v => Some v
    | None => Dict.get k (base_triple id c [])
    end.
Proof.
  intros Hk. unfold own_attributes, light_entry, base_triple.
  case_bool_decide as Ht.
  { rewrite bool_decide_eq_false_2 by congruence.
    pose proof (parse_transform_wf c) as Hwf.
    pose proof (parse_transform_get c k) as Hget.
    destruct (parse_transform py_float c) as [t e]. simpl in *.
    rewrite dict_get_update, Hget by (done || (destruct Hk as [-> | [-> | ->]]; done)).
    rewrite !dict_get_set. destruct Hk as [-> | [-> | ->]]; done. }
  case_bool_decide as Hs.
  { rewrite bool_decide_eq_false_2 by congruence.
    repeat case_match; simplify_eq; simpl; rewrite !dict_get_set;
      destruct Hk as [-> | [-> | ->]]; done. }
  case_bool_decide as Hl.
  { pose proof (parse_light_wf c) as Hwf.
    destruct (parse_light py_float c) as [t e]. simpl in *.
    rewrite dict_get_update by done. destruct (Dict.get k t); [done|].
    rewrite !dict_get_set. destruct Hk as [-> | [-> | ->]]; done. }
  case_match; simpl; rewrite !dict_get_set;
    destruct Hk as [-> | [-> | ->]]; done.
Qed.

Lemma index_of_None x l : index_of x l = None <-> x ∉ l.
Proof.
  induction l as [|y l IH]; simpl.
  - split; [intros _; apply not_elem_of_nil | done].
  - rewrite not_elem_of_cons. destruct (String.eqb_spec y x) as [->|Hne].
    + split; [done | by intros [? _]].
    + destruct (index_of x l); simpl.
      * split; [done | intros [_ Hx]; by apply IH in Hx].
      * split; [intros _; split; [congruence | by apply IH] | done].
Qed.

(** C10, as the code has it. Every dictionary returned by component
    resolution has the keys link_id, class and name. Their values are the
    link identifier, the Class and the Name of the directly referenced
    component, never those of a master; the one exception is a light
    component with a property whose key is link_id, class or name, whose
    value then stands in the entry. *)
Theorem base_triple_is_the_components_own fuel ref cm tm dir d evs :
  get_component_data py_float fuel ref cm tm dir = (Ok (Some d), evs) ->
  exists id c,
    names_component cm ref id c
    /\ Dict.get "link_id" d
       = Some (default (VStr id) (light_entry py_float c "link_id"))
    /\ Dict.get "class" d
       = Some (default (of_opt (get c "Class"))
                 (light_entry py_float c "class"))
    /\ Dict.get "name" d
       = Some (default (of_opt (get c "Name"))
                 (light_entry py_float c "name"))
    /\ (get c "Class" <> Some "NiLightComponent" ->
        forall k, light_entry py_float c k = None).
Proof.
  intros Hrun.
  apply get_component_data_inv in Hrun
    as (_ & id & c & md & evs_m & Hn & _ & -> & _ & _).
  exists id, c. split; [done|].
  rewrite !own_attributes_base by tauto.
  split_and!; try by destruct (light_entry py_float c _).
  intros Hl k. unfold light_entry. by rewrite bool_decide_eq_false_2.
Qed.

(** C7. A resolved component of one of the six recognised classes adds
    nothing to the set of unhandled components: what the call added is
    what the resolution of its master added, and nothing where there is
    no master. A resolved component of any other class adds its
    class::name pair, and its dictionary is the base triple written over
    what was inherited, nothing else. However often a pair is added, the
    set holds it once. *)
Theorem unhandled_classes_are_recorded_once :
  (forall fuel ref cm tm dir d evs,
      get_component_data py_float fuel ref cm tm dir = (Ok (Some d), evs) ->
      exists id c md evs_m,
        names_component cm ref id c
        /\ ((master_of cm c = None /\ md = [] /\ evs_m = [])
            \/ (exists m fuel',
                  fuel = S fuel' /\ master_of cm c = Some m
                  /\ get_component_data py_float fuel' (dummy_ref m) cm tm dir
                     = (Ok (Some md), evs_m)))
        /\ (recognized (get c "Class") ->
            added evs = added evs_m
            /\ unhandled_of evs = unhandled_of evs_m)
        /\ (~ recognized (get c "Class") ->
            let pair := fmt (get c "Class") +:+ "::" +:+ fmt (get c "Name") in
            evs = evs_m ++ [AddUnhandled pair]
            /\ pair ∈ unhandled_of evs
            /\ d = base_triple id c md))
  /\ (forall evs pair,
        pair ∈ added evs ->
        count_occ string_dec (elements (unhandled_of evs)) pair = 1).
Proof.
  split.
  - intros fuel ref cm tm dir d evs Hrun.
    apply get_component_data_inv in Hrun
      as (_ & id & c & md & evs_m & Hn & _ & -> & -> & Hmaster).
    exists id, c, md, evs_m. split_and!; [done|done| |].
    + intros Hrec. unfold unhandled_of.
      by rewrite added_app, own_attributes_recognized, app_nil_r.
    + intros Hrec pair. rewrite own_attributes_unrecognized by done.
      split_and!; [done| |done].
      unfold unhandled_of. rewrite added_app. simpl.
      apply elem_of_list_to_set, elem_of_app. right.
      apply elem_of_cons. by left.
  - intros evs pair Hin.
    apply NoDup_count_occ'.
    + apply NoDup_ListNoDup, NoDup_elements.
    + apply list_elem_of_In, elem_of_elements, elem_of_list_to_set, Hin.
Qed.

(** C5, as the code has it. Asset-path resolution fails, with one
    warning, on a path that is not a string, on the empty path, and on a
    path whose normalized form has no segment 'Data'. A scene-graph
    component whose path fails to resolve keeps 'nif_path_rel', and its
    'unreal_path' is present with the value null. *)
Theorem failed_path_is_null_and_relative_path_is_kept :
  (forall dir,
      get_unreal_asset_path None dir
      = (None, [Log WARNING (InvalidNifPath None)])
      /\ get_unreal_asset_path (Some EmptyString) dir
         = (None, [Log WARNING (InvalidNifPath (Some EmptyString))])
      /\ forall rel,
          rel <> EmptyString ->
          let normalized_path := NtPath.normpath (NtPath.join dir rel) in
          "Data" ∉ Str.split "/" (Str.replace_char "\" "/" normalized_path) ->
          get_unreal_asset_path (Some rel) dir
          = (None, [Log WARNING (NoDataRoot normalized_path)]))
  /\ (forall fuel ref cm tm dir d evs id c prop,
        get_component_data py_float fuel ref cm tm dir = (Ok (Some d), evs) ->
        names_component cm ref id c ->
        get c "Class" = Some "NiSceneGraphComponent" ->
        scene_root_property c = Some prop -> has_text prop = true ->
        let nif_path_rel := Str.strip (text_or_empty prop) in
        (get_unreal_asset_path (Some nif_path_rel) dir).1 = None ->
        Dict.get "unreal_path" d = Some VNone
        /\ Dict.get "nif_path_rel" d = Some (VStr nif_path_rel)).
Proof.
  split.
  - intros dir. split_and!; [done|done|].
    intros rel Hrel normalized_path Hno. unfold get_unreal_asset_path.
    destruct rel; [done|]. simpl negb. cbv iota.
    apply index_of_None in Hno. fold normalized_path. by rewrite Hno.
  - intros fuel ref cm tm dir d evs id c prop Hrun Hn Hclass Hprop Htext
      nif_path_rel Hfail.
    apply get_component_data_inv in Hrun
      as (_ & id' & c' & md & evs_m & Hn' & _ & -> & _ & _).
    destruct (names_component_inj _ _ _ _ _ _ Hn Hn') as [<- <-].
    unfold own_attributes.
    rewrite bool_decide_eq_false_2 by (rewrite Hclass; by intros [=]).
    rewrite bool_decide_eq_true_2 by done.
    rewrite Hprop, Htext. fold nif_path_rel.
    destruct (get_unreal_asset_path (Some nif_path_rel) dir) as [u e].
    simpl in Hfail. subst u. simpl.
    rewrite !dict_get_set. simpl. by repeat case_decide.
Qed.

(** *** The loops of [get_entity_data] *)

Lemma collect_components_cons fuel ref rest cm tm dir
    (acc : list (hkey float * attributes)) :
  collect_components py_float fuel (ref :: rest) cm tm dir acc
  = match get_component_data py_float fuel ref cm tm dir with
    | (Ok (Some d), evs) =>
        if nonempty_dict d then
          match name_key d with
          | Ok k =>
              let '(r, evs') :=
                collect_components py_float fuel rest cm tm dir
                  (Dict.set k d acc) in
              (r, evs ++ evs')
          | Raise e => (Raise e, evs)
          end
        else
          let '(r, evs') :=
            collect_components py_float fuel rest cm tm dir acc in
          (r, evs ++ evs')
    | (Ok None, evs) =>
        let '(r, evs') :=
          collect_components py_float fuel rest cm tm dir acc in
        (r, evs ++ evs')
    | (Raise e, evs) => (Raise e, evs)
    end.
Proof.
  cbn [collect_components].
  destruct (get_component_data py_float fuel ref cm tm dir)
    as [[[d|]|e] evs]; [| |done].
  - rewrite bind_ok. destruct (nonempty_dict d).
    + destruct (name_key d) as [k|e]; simpl.
      * by destruct (collect_components _ _ _ _ _ _ _).
      * by rewrite app_nil_r.
    + simpl. by destruct (collect_components _ _ _ _ _ _ _).
  - rewrite bind_ok. simpl. by destruct (collect_components _ _ _ _ _ _ _).
Qed.

(** What the loop returns is keyed by name, and binds each name to the
    last of the resolved components of that name. *)
Lemma collect_components_spec fuel refs cm tm dir :
  forall acc res evs,
    collect_components py_float fuel refs cm tm dir acc = (Ok res, evs) ->
    Dict.wf acc -> keyed acc ->
    Dict.wf res /\ keyed res
    /\ forall k,
        Dict.get k res
        = match last_match (fun d => bool_decide (name_key d = Ok k))
                  (resolved_components py_float fuel refs cm tm dir) with
          | Some d => Some d
          | None => Dict.get k acc
          end.
Proof.
  induction refs as [|ref refs IH]; intros acc res evs Hrun Hwf Hkeyed.
  { injection Hrun as <- <-. by split_and!. }
  rewrite collect_components_cons in Hrun.
  unfold resolved_components in *. cbn [omap list_omap].
  destruct (get_component_data py_float fuel ref cm tm dir)
    as [[[d|]|e] evs0]; cbn [fst]; [| |done].
  - destruct (nonempty_dict d) eqn:Hd.
    + destruct (name_key d) as [k0|e] eqn:Hkey; [|done].
      destruct (collect_components py_float fuel refs cm tm dir
                  (Dict.set k0 d acc)) as [r evs1] eqn:Hrest.
      injection Hrun as -> <-.
      apply IH in Hrest as (Hwf' & Hkeyed' & Hget).
      * split_and!; [done|done|]. intros k. rewrite Hget.
        cbn [last_match]. destruct (last_match _ _); [done|].
        rewrite dict_get_set, Hkey.
        destruct (decide (k0 = k)) as [->|Hne].
        -- by rewrite bool_decide_eq_true_2.
        -- rewrite bool_decide_eq_false_2; [done|congruence].
      * by apply dict_wf_set.
      * intros k d' [[= -> ->]|Hin]%dict_set_elem; [done|by apply Hkeyed].
    + destruct (collect_components py_float fuel refs cm tm dir acc)
        as [r evs1] eqn:Hrest.
      injection Hrun as -> <-.
      apply IH in Hrest as (Hwf' & Hkeyed' & Hget); [|done|done].
      split_and!; [done|done|]. intros k. rewrite Hget. cbn [last_match].
      destruct (last_match _ _); [done|].
      destruct d; [|done]. by rewrite bool_decide_eq_false_2.
  - destruct (collect_components py_float fuel refs cm tm dir acc)
      as [r evs1] eqn:Hrest.
    injection Hrun as -> <-.
    by apply IH in Hrest.
Qed.

Lemma collect_components_mono fuel fuel' refs cm tm dir :
  fuel <= fuel' ->
  forall acc res evs,
    collect_components py_float fuel refs cm tm dir acc = (Ok res, evs) ->
    collect_components py_float fuel' refs cm tm dir acc = (Ok res, evs).
Proof.
  intros Hle. induction refs as [|ref refs IH]; intros acc res evs Hrun;
    [done|].
  rewrite collect_components_cons in Hrun. rewrite collect_components_cons.
  destruct (get_component_data py_float fuel ref cm tm dir)
    as [[o|e] evs0] eqn:Hcall; [|done].
  rewrite (get_component_data_mono _ _ _ _ _ _ _ _ Hcall Hle).
  destruct o as [d|].
  - destruct (nonempty_dict d).
    + destruct (name_key d) as [k|e]; [|done].
      destruct (collect_components py_float fuel refs cm tm dir _)
        as [[r|e] evs1] eqn:Hrest; [|done].
      by rewrite (IH _ _ _ Hrest).
    + destruct (collect_components py_float fuel refs cm tm dir _)
        as [[r|e] evs1] eqn:Hrest; [|done].
      by rewrite (IH _ _ _ Hrest).
  - destruct (collect_components py_float fuel refs cm tm dir _)
      as [[r|e] evs1] eqn:Hrest; [|done].
    by rewrite (IH _ _ _ Hrest).
Qed.

(** In a dictionary keyed by name, the component of a name is the entry
    of that name. *)
Lemma component_named_values (acc : list (hkey float * attributes)) k :
  keyed acc -> component_named k (Dict.values acc) = Dict.get k acc.
Proof.
  unfold component_named.
  induction acc as [|[k' d'] acc IH]; intros Hkeyed; simpl; [done|].
  rewrite (Hkeyed k' d') by (apply elem_of_cons; by left).
  destruct (decide (k' = k)) as [->|Hne].
  - by rewrite bool_decide_eq_true_2.
  - rewrite bool_decide_eq_false_2 by congruence.
    apply IH. intros k0 d0 Hin. apply Hkeyed, elem_of_cons. by right.
Qed.

(** [get_entity_data] on an instance whose template is found, when both
    loops return. *)
Lemma get_entity_data_resolved fuel entity cm tm dir master_link
    template_entity T I evsT evsI :
  get entity "MasterLinkID" = Some master_link ->
  master_link <> EmptyString ->
  tm !! master_link = Some template_entity ->
  collect_components py_float fuel (findall template_entity "COMPONENT")
    cm tm dir [] = (Ok T, evsT) ->
  collect_components py_float fuel (findall entity "COMPONENT")
    cm tm dir [] = (Ok I, evsI) ->
  get_entity_data py_float fuel entity cm tm dir
  = (Ok (Some {| ed_name := get entity "Name";
                 ed_class := get entity "Class";
                 ed_type := get entity "Type";
                 ed_template_id := get template_entity "LinkID";
                 ed_instance_id := get entity "LinkID";
                 ed_components := Dict.values (Dict.update T I) |}),
     evsT ++ evsI).
Proof.
  intros Hlink Hne Htempl HT HI. unfold get_entity_data.
  rewrite Hlink. destruct master_link; [done|]. cbn [Str.nonempty negb].
  rewrite Htempl, HT, bind_ok, HI, bind_ok. simpl. by rewrite app_nil_r.
Qed.

(** C1. For an instance entity whose template is found, the component
    references of the template are resolved into a mapping keyed by name,
    those of the instance into a second one (each name bound to the last
    resolved component of that name), and the components of the Entity
    Record are the first mapping overlaid with the second: under a name
    the instance has, the instance's dictionary stands whole; under any
    other name, the template's. With a template component "Root" of scale
    1.0 and an instance component "Root" of scale 2.0, the "Root" of the
    record has scale 2.0. *)
Theorem instance_components_replace_template_components :
  (forall fuel entity cm tm dir master_link template_entity T I evsT evsI,
      get entity "MasterLinkID" = Some master_link ->
      master_link <> EmptyString ->
      tm !! master_link = Some template_entity ->
      collect_components py_float fuel (findall template_entity "COMPONENT")
        cm tm dir [] = (Ok T, evsT) ->
      collect_components py_float fuel (findall entity "COMPONENT")
        cm tm dir [] = (Ok I, evsI) ->
      let named k := fun d : attributes => bool_decide (name_key d = Ok k) in
      exists record,
        get_entity_data py_float fuel entity cm tm dir
        = (Ok (Some record), evsT ++ evsI)
        /\ (forall k,
              Dict.get k T
              = last_match (named k)
                  (resolved_components py_float fuel
                     (findall template_entity "COMPONENT") cm tm dir))
        /\ (forall k,
              Dict.get k I
              = last_match (named k)
                  (resolved_components py_float fuel
                     (findall entity "COMPONENT") cm tm dir))
        /\ forall k,
            component_named k (ed_components record)
            = match Dict.get k I with
              | Some d => Some d
              | None => Dict.get k T
              end)
  /\ (forall f1 f2 fuel,
        py_float "1.0" = Some f1 -> py_float "2.0" = Some f2 -> 1 <= fuel ->
        exists record evs root,
          get_entity_data py_float fuel entity_instance map_roots
            map_templates "maps"
          = (Ok (Some record), evs)
          /\ component_named (KStr "Root") (ed_components record) = Some root
          /\ Dict.get "scale" root = Some (VFloat f2)
          /\ length (ed_components record) = 1).
Proof.
  split.
  - intros fuel entity cm tm dir master_link template_entity T I evsT evsI
      Hlink Hne Htempl HT HI named.
    eexists. split; [by eapply get_entity_data_resolved|].
    apply collect_components_spec in HT as (HwfT & HkT & HgetT);
      [|apply dict_wf_nil|by intros ?? ?%elem_of_nil].
    apply collect_components_spec in HI as (HwfI & HkI & HgetI);
      [|apply dict_wf_nil|by intros ?? ?%elem_of_nil].
    split_and!.
    + intros k. rewrite HgetT. unfold named. by destruct (last_match _ _).
    + intros k. rewrite HgetI. unfold named. by destruct (last_match _ _).
    + intros k. cbn [ed_components].
      rewrite component_named_values, dict_get_update; [done|done|].
      intros k0 d0 [Hin|Hin]%dict_update_elem; [by apply HkT|by apply HkI].
  - intros f1 f2 fuel H1 H2 Hfuel.
    assert (HT : collect_components py_float 1
                   (findall entity_template "COMPONENT") map_roots
                   map_templates "maps" []
                 = (Ok [(KStr "Root",
                         [("link_id", VStr "10");
                          ("class", VStr "NiTransformationComponent");
                          ("name", VStr "Root"); ("scale", VFloat f1)])],
                    [])).
    { vm_compute. rewrite H1. reflexivity. }
    assert (HI : collect_components py_float 1
                   (findall entity_instance "COMPONENT") map_roots
                   map_templates "maps" []
                 = (Ok [(KStr "Root",
                         [("link_id", VStr "20");
                          ("class", VStr "NiTransformationComponent");
                          ("name", VStr "Root"); ("scale", VFloat f2)])],
                    [])).
    { vm_compute. rewrite H2. reflexivity. }
    apply (collect_components_mono 1 fuel) in HT; [|done].
    apply (collect_components_mono 1 fuel) in HI; [|done].
    eexists _, _, _. split.
    + by eapply (get_entity_data_resolved fuel entity_instance map_roots
                   map_templates "maps" "100" entity_template).
    + by split_and!.
Qed.

(** *** The second pass *)

Lemma get_entity_data_orphan fuel cm tm dir entity :
  orphan tm entity ->
  get_entity_data py_float fuel entity cm tm dir = (Ok None, []).
Proof.
  intros (master_link & Hlink & Hno). unfold get_entity_data.
  rewrite Hlink. destruct Hno as [->|Hno]; [done|].
  destruct (negb (Str.nonempty master_link)); [done|]. by rewrite Hno.
Qed.

Lemma second_pass_step_orphan fuel cm tm dir entity :
  orphan tm entity ->
  second_pass_step py_float fuel cm tm dir entity = (Ok [], []).
Proof.
  intros Ho. unfold second_pass_step.
  rewrite get_entity_data_orphan by done.
  destruct Ho as (master_link & -> & _). done.
Qed.

(** C6, as the code has it. An instance entity whose master link is
    empty or names no template gives no Entity Record and nothing is
    logged for it: [get_entity_data] returns [None] without an event, the
    turn of the loop on the entity raises nothing, appends nothing to the
    scene and writes nothing to the log, and the loop goes on with the
    entities that follow, its scene as it was. *)
Theorem unresolved_instances_are_dropped_without_a_trace
    fuel cm tm dir entity :
  orphan tm entity ->
  get_entity_data py_float fuel entity cm tm dir = (Ok None, [])
  /\ second_pass_step py_float fuel cm tm dir entity = (Ok [], [])
  /\ forall rest scene,
      second_pass_loop py_float fuel cm tm dir (entity :: rest) scene
      = second_pass_loop py_float fuel cm tm dir rest scene.
Proof.
  intros Ho. split_and!.
  - by apply get_entity_data_orphan.
  - by apply second_pass_step_orphan.
  - intros rest scene. cbn [second_pass_loop].
    rewrite second_pass_step_orphan, bind_ok by done.
    rewrite app_nil_r. simpl.
    by destruct (second_pass_loop py_float fuel cm tm dir rest scene).
Qed.

(** *** Light properties *)

(** The key of a light property, character by character. *)
Lemma light_key_chars name : light_key name = key_chars name.
Proof.
  unfold light_key. induction name as [|a name IH]; [done|].
  cbn [key_chars Str.lower]. rewrite <- IH.
  by destruct a as [[] [] [] [] [] [] [] []].
Qed.

Lemma light_step_contribution d prop :
  (light_step py_float d prop).1
  = match light_contribution py_float prop with
    | Some (k, v) => Dict.set k v d
    | None => d
    end.
Proof.
  unfold light_step, light_contribution, light_value.
  destruct (get prop "Name") as [name|]; [|done].
  destruct (Str.nonempty name); [|done]. cbn [negb].
  rewrite light_key_chars.
  repeat case_bool_decide; try done.
  - by destruct (floats_of _ _).
  - by destruct (py_float _).
Qed.

Lemma light_loop_contributions props : forall d k,
  Dict.get k (light_loop py_float props d).1
  = match last_match (fun kv => bool_decide (kv.1 = k))
            (omap (light_contribution py_float) props) with
    | Some kv => Some kv.2
    | None => Dict.get k d
    end.
Proof.
  induction props as [|prop props IH]; intros d k; [done|].
  cbn [light_loop omap list_omap].
  pose proof (light_step_contribution d prop) as Hstep.
  destruct (light_step py_float d prop) as [d1 e1]. simpl in Hstep. subst d1.
  specialize (IH (match light_contribution py_float prop with
                  | Some (k0, v) => Dict.set k0 v d
                  | None => d
                  end) k).
  destruct (light_loop py_float props _) as [d2 e2]. cbn [fst] in *.
  rewrite IH. destruct (light_contribution py_float prop) as [[k0 v]|];
    cbn [last_match]; [|done].
  destruct (last_match _ _); [done|]. cbn [fst snd].
  rewrite dict_get_set. case_decide; case_bool_decide; done.
Qed.

(** C9, as the code has it. The key of a light property is its name in
    lower case with every space turned into an underscore and the
    parentheses removed; other punctuation stays. A property of class
    'Entity Pointer' gives the list of the non-empty RefLinkIDs of its
    ITEM children; one of class 'Color (RGB)' gives the list of the
    numbers between the commas of its trimmed text, however many, and
    nothing when one of them is no number; one of class 'Float' gives the
    number its trimmed text reads as, and nothing when it reads as none;
    any other gives its trimmed text. A property without a name gives
    nothing, and of several properties with the same key the last that
    gives a value stands. *)
Theorem light_properties_by_key_and_class :
  (forall name, light_key name = key_chars name)
  /\ (forall component k,
        Dict.get k (parse_light py_float component).1
        = snd <$> last_match (fun kv => bool_decide (kv.1 = k))
                    (omap (light_contribution py_float)
                          (findall component "PROPERTY"))).
Proof.
  split; [apply light_key_chars|].
  intros component k. unfold parse_light. rewrite light_loop_contributions.
  by destruct (last_match _ _).
Qed.

End ConverterFacts.

(** ** The first pass *)
Section FirstPassFacts.

Lemma first_pass_step_objects ix n e :
  objects (first_pass_step ix n e) = <[n := clear e]> (objects ix).
Proof.
  unfold first_pass_step.
  destruct (if String.eqb (tag e) "COMPONENT" then _ else _) as [cm tm].
  simpl. apply insert_insert_eq.
Qed.

Lemma first_pass_step_components ix n e id :
  component_refs (first_pass_step ix n e) !! id
  = if is_component_with id e then Some n else component_refs ix !! id.
Proof.
  unfold first_pass_step, is_component_with.
  destruct (String.eqb (tag e) "COMPONENT") eqn:Htag; simpl.
  - destruct (get e "LinkID") as [link_id|]; simpl.
    + destruct (Str.nonempty link_id) eqn:Hne; simpl.
      * destruct (decide (link_id = id)) as [->|Hid].
        -- rewrite bool_decide_eq_true_2, Hne by done. simpl.
           apply lookup_insert_eq.
        -- rewrite bool_decide_eq_false_2 by congruence. simpl.
           by apply lookup_insert_ne.
      * case_bool_decide as Hid; [|done].
        injection Hid as ->. by rewrite Hne.
    + done.
  - destruct (String.eqb (tag e) "ENTITY"); [|done].
    destruct (get e "MasterLinkID"); [done|].
    destruct (get e "LinkID") as [l|]; [|done]. by destruct (Str.nonempty l).
Qed.

Lemma first_pass_step_templates ix n e id :
  template_refs (first_pass_step ix n e) !! id
  = if is_template_with id e then Some n else template_refs ix !! id.
Proof.
  unfold first_pass_step, is_template_with.
  destruct (String.eqb (tag e) "COMPONENT") eqn:Hc; simpl.
  { assert (String.eqb (tag e) "ENTITY" = false) as ->.
    { apply String.eqb_eq in Hc. by rewrite Hc. }
    simpl. destruct (get e "LinkID") as [l|]; [|done].
    by destruct (Str.nonempty l). }
  destruct (String.eqb (tag e) "ENTITY") eqn:Htag; simpl; [|done].
  destruct (get e "MasterLinkID") as [master|]; simpl; [done|].
  destruct (get e "LinkID") as [link_id|]; simpl.
  - destruct (Str.nonempty link_id) eqn:Hne; simpl.
    + destruct (decide (link_id = id)) as [->|Hid].
      * rewrite bool_decide_eq_true_2, Hne by done. simpl.
        apply lookup_insert_eq.
      * rewrite bool_decide_eq_false_2 by congruence. simpl.
        by apply lookup_insert_ne.
    + case_bool_decide as Hid; [|done].
      injection Hid as ->. by rewrite Hne.
  - done.
Qed.

(** The loop, for either of the two maps: [sel] picks the map and [p]
    tells the elements entered under a link identifier. *)
Section Loop.
Variable sel : link_index -> gmap string nat.
Variable p : string -> element -> bool.
Hypothesis step_sel : forall ix n e id,
  sel (first_pass_step ix n e) !! id
  = if p id e then Some n else sel ix !! id.

Lemma first_pass_loop_deref events : forall ix n id,
  (forall id' m, sel ix !! id' = Some m -> m < n) ->
  deref (objects (first_pass_loop ix n events))
        (sel (first_pass_loop ix n events)) !! id
  = match last_match (p id) events with
    | Some e => Some (clear e)
    | None => deref (objects ix) (sel ix) !! id
    end.
Proof.
  induction events as [|e events IH]; intros ix n id Hbound; [done|].
  cbn [first_pass_loop last_match]. rewrite IH.
  - destruct (last_match (p id) events); [done|].
    unfold deref. rewrite !lookup_omap, step_sel, first_pass_step_objects.
    destruct (p id e); simpl; [apply lookup_insert_eq|].
    destruct (sel ix !! id) as [m|] eqn:Hm; simpl; [|done].
    apply lookup_insert_ne. apply Hbound in Hm. lia.
  - intros id' m. rewrite step_sel.
    destruct (p id' e); [intros [= <-]; lia|].
    intros Hm%Hbound. lia.
Qed.

End Loop.

(** After the first pass the component map binds a link identifier to
    the last [COMPONENT] element that carries it, and the template map to
    the last [ENTITY] element without master link that carries it, each as
    [clear()] has left it. *)
Lemma first_pass_binds_emptied_elements doc id :
  components_map (first_pass doc) !! id
  = clear <$> last_match (is_component_with id)
                (end_events ["ENTITY"; "COMPONENT"] doc)
  /\ templates_map (first_pass doc) !! id
     = clear <$> last_match (is_template_with id)
                   (end_events ["ENTITY"; "COMPONENT"] doc).
Proof.
  unfold components_map, templates_map, first_pass. split.
  - rewrite (first_pass_loop_deref component_refs is_component_with
               first_pass_step_components) by done.
    by destruct (last_match _ _).
  - rewrite (first_pass_loop_deref template_refs is_template_with
               first_pass_step_templates) by done.
    by destruct (last_match _ _).
Qed.

(** Whatever the document, no element of either map has an attribute, a
    text or a child left. *)
Lemma first_pass_maps_hold_no_data doc id e :
  components_map (first_pass doc) !! id = Some e
  \/ templates_map (first_pass doc) !! id = Some e ->
  attrib e = [] /\ text e = None /\ children e = [].
Proof.
  destruct (first_pass_binds_emptied_elements doc id) as [Hc Ht].
  intros [H|H]; [rewrite Hc in H|rewrite Ht in H];
    by apply fmap_Some in H as (e0 & _ & ->).
Qed.

End FirstPassFacts.

(** ** Asset paths *)
Section PathFacts.
Implicit Types (s t : string) (a b : ascii).

Lemma lacks_replace a b s : a <> b -> lacks a (Str.replace_char a b s) = true.
Proof.
  intros Hab. induction s as [|c s IH]; simpl; [done|]. rewrite IH.
  destruct (Ascii.eqb_spec c a) as [->|Hc].
  - destruct (Ascii.eqb_spec b a); [congruence|done].
  - by destruct (Ascii.eqb_spec c a).
Qed.


















End PathFacts.

(** ** The theorems on the example documents *)

Lemma chain_AB : chain map_AB "1" 1.
Proof.
  eapply (chain_step map_AB "1" comp_A "2"); [reflexivity|reflexivity|].
  by eapply (chain_end map_AB "2" comp_B).
Defined.

Lemma resolution_returns_on_finite_chains_witness :
  names_component map_AB (dummy_ref "1") "1" comp_A
  /\ chain map_AB "1" 1 /\ 1 < 2
  /\ exists d evs,
      get_component_data Decimal.read 2 (dummy_ref "1") map_AB ∅ "maps"
      = (Ok (Some d), evs).
Proof.
  split_and!; [done|exact chain_AB|lia|].
  apply (proj1 (proj2 (resolution_returns_on_finite_chains Decimal.read
                         (dummy_ref "1") map_AB ∅ "maps"))
           "1" comp_A 1 2); [done|exact chain_AB|lia].
Defined.

(** The component that is its own master never resolves: whatever the
    depth allowed, the call does not return. *)
Lemma a_cycle_is_followed_without_end :
  ~ exists fuel r evs,
      get_component_data Decimal.read fuel (dummy_ref "7") map_loop ∅ "maps"
      = (Ok r, evs).
Proof.
  intros (fuel & r & evs & Hrun).
  rewrite (get_component_data_endless Decimal.read map_loop ∅ "maps" fuel
             "7" (dummy_ref "7") comp_loop) in Hrun; [done|done|].
  intros n. induction n as [|n IH]; intros Hchain;
    inversion Hchain as [? c Hc Hm|? c m ? Hc Hm Hrest]; subst.
  - by injection Hc as <-.
  - injection Hc as <-. injection Hm as <-. by apply IH.
Qed.

Lemma master_merge_is_by_attribute_witness :
  (names_component map_AB (dummy_ref "1") "1" comp_A
   /\ master_of map_AB comp_A = Some "2"
   /\ get_component_data Decimal.read 1 (dummy_ref "2") map_AB ∅ "maps"
      = (Ok (Some data_B), []))
  /\ (exists d,
        get_component_data Decimal.read 2 (dummy_ref "1") map_AB ∅ "maps"
        = (Ok (Some d),
           [] ++ (own_attributes Decimal.read "1" comp_A "maps" []).2)
        /\ forall k,
            Dict.get k d
            = match Dict.get k
                      (own_attributes Decimal.read "1" comp_A "maps" []).1 with
              | Some v => Some v
              | None => Dict.get k data_B
              end)
  /\ exists d evs,
      get_component_data Decimal.read 2 (dummy_ref "1") map_AB ∅ "maps"
      = (Ok (Some d), evs)
      /\ Dict.get "translation" d
         = Some (VList [VFloat (Decimal.Dec false 1 0);
                        VFloat (Decimal.Dec false 2 0);
                        VFloat (Decimal.Dec false 3 0)])
      /\ Dict.get "scale" d = Some (VFloat (Decimal.Dec false 5 1)).
Proof.
  split; [|split].
  - by vm_compute.
  - apply (proj1 (master_merge_is_by_attribute Decimal.read)
             1 (dummy_ref "1") map_AB ∅ "maps" "1" comp_A "2" data_B []);
      by vm_compute.
  - apply (proj2 (master_merge_is_by_attribute Decimal.read));
      [by vm_compute..|lia].
Defined.

Lemma instance_components_replace_template_components_witness :
  (Decimal.read "1.0" = Some (Decimal.Dec false 1 0)
   /\ Decimal.read "2.0" = Some (Decimal.Dec false 2 0))
  /\ (exists record,
        get_entity_data Decimal.read 1 entity_instance map_roots
          map_templates "maps"
        = (Ok (Some record), [] ++ [])
        /\ (forall k,
              Dict.get k [(KStr "Root", data_root "10" 1)]
              = last_match (fun d => bool_decide (name_key d = Ok k))
                  (resolved_components Decimal.read 1
                     (findall entity_template "COMPONENT") map_roots
                     map_templates "maps"))
        /\ (forall k,
              Dict.get k [(KStr "Root", data_root "20" 2)]
              = last_match (fun d => bool_decide (name_key d = Ok k))
                  (resolved_components Decimal.read 1
                     (findall entity_instance "COMPONENT") map_roots
                     map_templates "maps"))
        /\ forall k,
            component_named k (ed_components record)
            = match Dict.get k [(KStr "Root", data_root "20" 2)] with
              | Some d => Some d
              | None => Dict.get k [(KStr "Root", data_root "10" 1)]
              end)
  /\ exists record evs root,
      get_entity_data Decimal.read 1 entity_instance map_roots map_templates
        "maps"
      = (Ok (Some record), evs)
      /\ component_named (KStr "Root") (ed_components record) = Some root
      /\ Dict.get "scale" root = Some (VFloat (Decimal.Dec false 2 0))
      /\ length (ed_components record) = 1.
Proof.
  split; [|split].
  - by vm_compute.
  - apply (proj1 (instance_components_replace_template_components
                    Decimal.read)
             1 entity_instance map_roots map_templates "maps" "100"
             entity_template);
      by vm_compute.
  - apply (proj2 (instance_components_replace_template_components
                    Decimal.read)
             (Decimal.Dec false 1 0) (Decimal.Dec false 2 0) 1);
      [by vm_compute..|lia].
Defined.



(** A scene-graph component whose model is under no 'Data' folder: the
    key 'unreal_path' is there, with the value null. *)
Lemma a_failed_path_is_written_as_null :
  get_component_data Decimal.read 1 (dummy_ref "3") map_mesh ∅ "maps"
  = (Ok (Some data_mesh), [Log WARNING (NoDataRoot "maps\model.nif")])
  /\ Dict.get "unreal_path" data_mesh = Some VNone.
Proof. by vm_compute. Qed.

Lemma failed_path_is_null_and_relative_path_is_kept_witness :
  (get_component_data Decimal.read 1 (dummy_ref "3") map_mesh ∅ "maps"
   = (Ok (Some data_mesh), [Log WARNING (NoDataRoot "maps\model.nif")])
   /\ names_component map_mesh (dummy_ref "3") "3" comp_mesh
   /\ get comp_mesh "Class" = Some "NiSceneGraphComponent"
   /\ (get_unreal_asset_path (Some "model.nif") "maps").1 = None)
  /\ Dict.get "unreal_path" data_mesh = Some VNone
  /\ Dict.get "nif_path_rel" data_mesh = Some (VStr "model.nif").
Proof.
  split; [by vm_compute|].
  apply (proj2 (failed_path_is_null_and_relative_path_is_kept Decimal.read)
           1 (dummy_ref "3") map_mesh ∅ "maps" data_mesh
           [Log WARNING (NoDataRoot "maps\model.nif")] "3" comp_mesh
           (Element "PROPERTY" [("Name", "Scene Root"); ("Class", "String")]
              (Some "model.nif") []));
    by vm_compute.
Defined.

(** The run on a document whose only entity is an instance of a
    template that does not exist: the scene is empty and the log has the
    five messages of the passes, none on the entity. *)
Lemma a_dropped_entity_is_not_logged :
  main Decimal.read 1 doc_orphan "maps"
  = (Some [],
     [Log INFO FirstPassStart; Log INFO (FirstPassComplete 0 0);
      Log INFO SecondPassStart; Log INFO SecondPassComplete;
      Log INFO WritingScene])
  /\ length (log_of (second_pass_step Decimal.read 1 ∅ ∅ "maps"
                       entity_orphan).2) = 0.
Proof. by vm_compute. Qed.

Lemma orphan_entity_orphan : orphan (∅ : gmap string element) entity_orphan.
Proof. exists "999". split; [reflexivity|by right]. Defined.

Lemma unresolved_instances_are_dropped_without_a_trace_witness :
  orphan (∅ : gmap string element) entity_orphan
  /\ get_entity_data Decimal.read 1 entity_orphan ∅ ∅ "maps" = (Ok None, [])
  /\ second_pass_step Decimal.read 1 ∅ ∅ "maps" entity_orphan = (Ok [], [])
  /\ forall rest scene,
      second_pass_loop Decimal.read 1 ∅ ∅ "maps" (entity_orphan :: rest) scene
      = second_pass_loop Decimal.read 1 ∅ ∅ "maps" rest scene.
Proof.
  split; [exact orphan_entity_orphan|].
  exact (unresolved_instances_are_dropped_without_a_trace Decimal.read
           1 ∅ ∅ "maps" entity_orphan orphan_entity_orphan).
Defined.

Lemma unhandled_classes_are_recorded_once_witness :
  (get_component_data Decimal.read 1 (dummy_ref "8") map_misc ∅ "maps"
   = (Ok (Some data_foo), [AddUnhandled "NiFooBarComponent::Foo"])
   /\ get_component_data Decimal.read 1 (dummy_ref "9") map_misc ∅ "maps"
      = (Ok (Some data_wall), [])
   /\ "NiFooBarComponent::Foo"
      ∈ added [AddUnhandled "NiFooBarComponent::Foo";
               AddUnhandled "NiFooBarComponent::Foo"])
  /\ (exists id c md evs_m,
        names_component map_misc (dummy_ref "9") id c
        /\ ((master_of map_misc c = None /\ md = [] /\ evs_m = [])
            \/ (exists m fuel',
                  1 = S fuel' /\ master_of map_misc c = Some m
                  /\ get_component_data Decimal.read fuel' (dummy_ref m)
                       map_misc ∅ "maps"
                     = (Ok (Some md), evs_m)))
        /\ (recognized (get c "Class") ->
            added [] = added evs_m /\ unhandled_of [] = unhandled_of evs_m)
        /\ (~ recognized (get c "Class") ->
            let pair := fmt (get c "Class") +:+ "::" +:+ fmt (get c "Name") in
            [] = evs_m ++ [AddUnhandled pair]
            /\ pair ∈ unhandled_of []
            /\ data_wall = base_triple id c md))
  /\ count_occ string_dec
       (elements (unhandled_of [AddUnhandled "NiFooBarComponent::Foo";
                                AddUnhandled "NiFooBarComponent::Foo"]))
       "NiFooBarComponent::Foo" = 1.
Proof.
  assert (Hin : "NiFooBarComponent::Foo"
                ∈ added [AddUnhandled "NiFooBarComponent::Foo";
                         AddUnhandled "NiFooBarComponent::Foo"])
    by (apply elem_of_cons; by left).
  split; [|split].
  - split_and!; [by vm_compute|by vm_compute|done].
  - apply (proj1 (unhandled_classes_are_recorded_once Decimal.read)
             1 (dummy_ref "9") map_misc ∅ "maps" data_wall []).
    by vm_compute.
  - by apply (proj2 (unhandled_classes_are_recorded_once Decimal.read)).
Defined.

(** A light with a master and a property called "Name": the entry
    'name' is the text of the property, neither the Name of the component
    nor that of its master. *)
Lemma a_light_property_takes_the_place_of_the_name :
  get_component_data Decimal.read 2 (dummy_ref "5") map_lamp ∅ "maps"
  = (Ok (Some data_lamp), [])
  /\ get comp_lamp "Name" = Some "Lamp"
  /\ Dict.get "name" data_lamp = Some (VStr "Sun").
Proof. by vm_compute. Qed.

Lemma base_triple_is_the_components_own_witness :
  get_component_data Decimal.read 2 (dummy_ref "1") map_AB ∅ "maps"
  = (Ok (Some data_A), [])
  /\ exists id c,
      names_component map_AB (dummy_ref "1") id c
      /\ Dict.get "link_id" data_A
         = Some (default (VStr id) (light_entry Decimal.read c "link_id"))
      /\ Dict.get "class" data_A
         = Some (default (of_opt (get c "Class"))
                   (light_entry Decimal.read c "class"))
      /\ Dict.get "name" data_A
         = Some (default (of_opt (get c "Name"))
                   (light_entry Decimal.read c "name"))
      /\ (get c "Class" <> Some "NiLightComponent" ->
          forall k, light_entry Decimal.read c k = None).
Proof.
  assert (Hrun : get_component_data Decimal.read 2 (dummy_ref "1") map_AB ∅
                   "maps" = (Ok (Some data_A), [])) by (by vm_compute).
  split; [done|].
  exact (base_triple_is_the_components_own Decimal.read 2 (dummy_ref "1")
           map_AB ∅ "maps" data_A [] Hrun).
Defined.

(** The keys of the properties of a spot light: the spaces are
    underscores, the full stop stays, and the colour has two numbers. *)
Lemma spaces_become_underscores_and_punctuation_stays :
  (parse_light Decimal.read comp_spot).1
  = [("light_type", VStr "Spot");
     ("outer_spot_angle_deg.", VFloat (Decimal.Dec false 455 1));
     ("diffuse_color",
      VList [VFloat (Decimal.Dec false 1 0); VFloat (Decimal.Dec false 5 1)]);
     ("affected_entities", VList [VStr "200"])]
  /\ light_key "Outer Spot Angle (deg.)" <> "outerspotangledeg".
Proof. by vm_compute. Qed.

(** C8: what the code does. On the document with the two "Root"
    components, a template and its instance, the first pass binds each
    link identifier to an element that [clear()] has emptied: the maps hold
    no LinkID, no Class, no Name and no property. The second pass therefore
    finds no component reference under the template, resolves the
    instance's component to link_id with class and name null, and records
    'None::None' as unhandled. *)
Theorem first_pass_maps_are_emptied :
  components_map (first_pass doc_roots) !! "20"
  = Some (Element "COMPONENT" [] None [])
  /\ templates_map (first_pass doc_roots) !! "100"
     = Some (Element "ENTITY" [] None [])
  /\ main Decimal.read 3 doc_roots "maps"
     = (Some [{| ed_name := Some "Tree 01"; ed_class := None;
                 ed_type := None; ed_template_id := None;
                 ed_instance_id := Some "200";
                 ed_components :=
                   [[("link_id", VStr "20"); ("class", VNone);
                     ("name", VNone)]] |}],
        [Log INFO FirstPassStart; Log INFO (FirstPassComplete 2 1);
         Log INFO SecondPassStart; AddUnhandled "None::None";
         Log INFO SecondPassComplete; Log INFO WritingScene;
         Log WARNING UnhandledHeader;
         Log WARNING (UnhandledItem "None::None")]).
Proof. by vm_compute. Qed.

(** * Further properties of the converter *)

Section MoreDictFacts.
Context {K V : Type} `{EqDecision K}.

(** [d.update(d2)] keeps the keys of [d] in their places and appends
    the keys that only [d2] has, in their order. *)
Lemma dict_keys_update (d d2 : list (K * V)) :
  Dict.wf d2 ->
  Dict.keys (Dict.update d d2)
  = Dict.keys d
    ++ List.filter (fun k => bool_decide (k ∉ Dict.keys d)) (Dict.keys d2).
Proof.
  unfold Dict.update, Dict.wf. revert d.
  induction d2 as [|[k v] d2 IH]; intros d Hwf.
  { simpl. by rewrite app_nil_r. }
  apply NoDup_cons in Hwf as [Hk Hwf].
  cbn [fold_left fst snd]. rewrite IH by done. rewrite dict_keys_set.
  cbn [Dict.keys map fst List.filter].
  destruct (decide (k ∈ Dict.keys d)) as [Hin|Hnin].
  - rewrite bool_decide_eq_false_2 by (by intros ?). done.
  - rewrite bool_decide_eq_true_2 by done.
    rewrite <- app_assoc. simpl. do 2 f_equal.
    apply List.filter_ext_in. intros k' Hk'%list_elem_of_In.
    apply bool_decide_ext. rewrite elem_of_app, list_elem_of_singleton.
    split; [tauto|]. intros Hno [? | ->]; [tauto|]. by apply Hk.
Qed.

Lemma dict_keys_values_keyed {W} (f : V -> W) (g : K -> W) (d : list (K * V)) :
  (forall k v, (k, v) ∈ d -> f v = g k) ->
  map f (Dict.values d) = map g (Dict.keys d).
Proof.
  induction d as [|[k v] d IH]; intros Hf; simpl; [done|].
  rewrite (Hf k v) by (apply elem_of_cons; by left).
  f_equal. apply IH. intros k' v' Hin. apply Hf, elem_of_cons. by right.
Qed.

End MoreDictFacts.

Section MoreConverterFacts.
Context {float : Type} `{EqDecision float}.
Variable py_float : string -> option float.
#[local] Abbreviation value := (value float).
#[local] Abbreviation attributes := (list (string * value)).
Implicit Types (d data : attributes) (component c : element)
  (cm tm : gmap string element) (evs : list event).

(** ** [parse_transform] *)

(** X1. [parse_transform] reads each of the three attributes from its
    own property alone: 'translation' is there exactly when the
    Translation property has text whose fields all read as numbers,
    'scale' exactly when the Scale property has text that reads as a
    number, 'rotation' exactly when the Rotation property has a ROW with
    text and every ROW with text reads as numbers. A property that
    does not parse takes nothing from the other two, and no other key is
    written. *)
Theorem parse_transform_reads_each_attribute_alone component :
  let transform := (parse_transform py_float component).1 in
  Dict.get "translation" transform
  = match find_property component "Translation" with
    | Some prop =>
        if has_text prop
        then vfloats <$> floats_of py_float (text_or_empty prop)
        else None
    | None => None
    end
  /\ Dict.get "rotation" transform
     = match find_property component "Rotation" with
       | Some prop =>
           match matrix_of py_float (findall prop "ROW") with
           | Some (row :: rows) => Some (VList (map vfloats (row :: rows)))
           | _ => None
           end
       | None => None
       end
  /\ Dict.get "scale" transform
     = match find_property component "Scale" with
       | Some prop =>
           if has_text prop
           then VFloat <$> py_float (text_or_empty prop)
           else None
       | None => None
       end
  /\ forall k,
      k <> "translation" -> k <> "rotation" -> k <> "scale" ->
      Dict.get k transform = None.
Proof.
  cbv zeta. split_and!; [| | |apply parse_transform_get].
  - unfold parse_transform, read_translation, read_rotation, read_scale.
    destruct (find_property component "Translation") as [tp|];
      [destruct (has_text tp); [destruct (floats_of _ _)|]|];
      repeat case_match; simplify_eq; simpl; rewrite ?dict_get_set;
      repeat case_decide; simpl; congruence.
  - unfold parse_transform, read_translation, read_rotation, read_scale.
    destruct (find_property component "Rotation") as [rp|];
      [destruct (findall rp "ROW") as [|r rs] eqn:Hrows;
       [|destruct (matrix_of _ (r :: rs)) as [[|m ms]|]]|];
      repeat case_match; simplify_eq; simpl; rewrite ?dict_get_set;
      repeat case_decide; simpl; congruence.
  - unfold parse_transform, read_translation, read_rotation, read_scale.
    destruct (find_property component "Scale") as [sp|];
      [destruct (has_text sp); [destruct (py_float _)|]|];
      repeat case_match; simplify_eq; simpl; rewrite ?dict_get_set;
      repeat case_decide; simpl; congruence.
Qed.

(** ** [get_component_data] *)

(** A reference that names a component never resolves to [None], and no
    call ends in [TypeError]. *)
Lemma get_component_data_shape fuel : forall ref cm tm dir,
  (forall evs,
      get_component_data py_float fuel ref cm tm dir <> (Raise TypeError, evs))
  /\ (forall id c evs,
        names_component cm ref id c ->
        get_component_data py_float fuel ref cm tm dir <> (Ok None, evs)).
Proof.
  induction fuel as [|fuel IH]; intros ref cm tm dir; [by split|].
  destruct (names_component_cases cm ref) as [(id & c & Hn)|Hno].
  2: { rewrite get_component_data_unresolved by done.
       split; [done|]. intros id c evs Hn. by destruct (Hno id c). }
  destruct (master_of cm c) as [m|] eqn:Hm.
  - rewrite (get_component_data_master _ _ _ _ _ _ _ _ _ Hn Hm).
    apply master_of_Some in Hm as (_ & Hne & c' & Hc').
    destruct (IH (dummy_ref m) cm tm dir) as [Hty Hnone].
    destruct (get_component_data py_float fuel (dummy_ref m) cm tm dir)
      as [[[md|]|e] evs_m] eqn:Hmaster.
    + by split.
    + by destruct (Hnone m c' evs_m).
    + split; [|done]. intros evs [= -> <-]. by destruct (Hty evs_m).
  - by rewrite (get_component_data_no_master _ _ _ _ _ _ _ _ Hn Hm).
Qed.

(** X2. [get_component_data] never ends in [TypeError]: the call
    [data.update(...)] on a master's result never receives [None],
    because a master link is followed only when it names a component of
    the map, and such a reference never resolves to [None]. *)
Theorem master_update_never_receives_None fuel ref cm tm dir evs :
  get_component_data py_float fuel ref cm tm dir <> (Raise TypeError, evs).
Proof. apply get_component_data_shape. Qed.

(** X3. [get_component_data] returns [None] exactly for a reference
    that names no component of the map (no RefLinkID, an empty one, or one
    that is no key of the map): for such a reference the call returns
    [None], logs nothing and adds nothing to the set of unhandled
    components; and a call that returns [None] was given such a reference
    and has logged and added nothing. *)
Theorem None_is_returned_exactly_for_unknown_references fuel ref cm tm dir :
  ((forall id c, ~ names_component cm ref id c)
   -> get_component_data py_float (S fuel) ref cm tm dir = (Ok None, []))
  /\ (forall evs,
        get_component_data py_float (S fuel) ref cm tm dir = (Ok None, evs)
        -> (forall id c, ~ names_component cm ref id c) /\ evs = []).
Proof.
  split.
  - intros Hno. by apply get_component_data_unresolved.
  - intros evs Hrun.
    destruct (names_component_cases cm ref) as [(id & c & Hn)|Hno].
    + by destruct (proj2 (get_component_data_shape (S fuel) ref cm tm dir)
                     id c evs Hn).
    + split; [done|].
      rewrite get_component_data_unresolved in Hrun by done.
      by inversion Hrun.
Qed.

(** X4. The parameter [templates_map] of [get_component_data] is passed
    down the recursion and never read: the result is the same whatever
    the template map. *)
Theorem templates_map_is_never_read fuel : forall ref cm tm tm' dir,
  get_component_data py_float fuel ref cm tm dir
  = get_component_data py_float fuel ref cm tm' dir.
Proof.
  induction fuel as [|fuel IH]; intros ref cm tm tm' dir; [done|].
  destruct (names_component_cases cm ref) as [(id & c & Hn)|Hno].
  2: by rewrite !get_component_data_unresolved.
  destruct (master_of cm c) as [m|] eqn:Hm.
  - rewrite !(get_component_data_master _ _ _ _ _ _ _ _ _ Hn Hm).
    by rewrite (IH (dummy_ref m) cm tm tm' dir).
  - by rewrite !(get_component_data_no_master _ _ _ _ _ _ _ _ Hn Hm).
Qed.

(** X5. Along a chain of masters the merge is by attribute at every
    level: under each key the resolved dictionary has the value of the
    nearest component of the chain that gives the key, the referenced
    component first, and no entry when none of them gives it. *)
Theorem the_nearest_component_of_the_chain_gives_the_entry fuel :
  forall ref cm tm dir d evs id c,
    get_component_data py_float fuel ref cm tm dir = (Ok (Some d), evs) ->
    names_component cm ref id c ->
    forall k, Dict.get k d = nearest_entry py_float cm dir fuel id k.
Proof.
  induction fuel as [|fuel IH]; intros ref cm tm dir d evs id c Hrun Hn k;
    [done|].
  apply get_component_data_inv in Hrun
    as (_ & id' & c' & md & evs_m & Hn' & _ & -> & _ & Hmaster).
  destruct (names_component_inj _ _ _ _ _ _ Hn Hn') as [<- <-].
  destruct Hn as (_ & _ & Hc). cbn [nearest_entry]. rewrite Hc.
  rewrite own_attributes_overlay.
  destruct (Dict.get k (own_attributes py_float id c dir []).1); [done|].
  destruct Hmaster as [(-> & -> & _)|(m & fuel' & [= <-] & -> & Hcall)];
    [done|].
  assert (Hm : exists cmaster, names_component cm (dummy_ref m) m cmaster).
  { apply get_component_data_inv in Hcall
      as (_ & idm & cmaster & _ & _ & Hnm & _).
    pose proof Hnm as ([= <-] & _). by exists cmaster. }
  destruct Hm as [cmaster Hnm]. by eapply IH.
Qed.

(** ** [get_entity_data] *)

Lemma collect_components_skip fuel before ref after cm tm dir :
  (forall id c, ~ names_component cm ref id c) ->
  forall acc : list (hkey float * attributes),
    collect_components py_float (S fuel) (before ++ ref :: after) cm tm dir acc
    = collect_components py_float (S fuel) (before ++ after) cm tm dir acc.
Proof.
  intros Hno. induction before as [|r before IH]; intros acc.
  - cbn [app]. rewrite collect_components_cons.
    rewrite get_component_data_unresolved by done.
    by destruct (collect_components _ _ _ _ _ _ _).
  - cbn [app]. rewrite !collect_components_cons.
    destruct (get_component_data py_float (S fuel) r cm tm dir)
      as [[[d|]|e] evs]; [|by rewrite IH|done].
    destruct (nonempty_dict d); [|by rewrite IH].
    destruct (name_key d); [by rewrite IH|done].
Qed.

Lemma resolvable_spec tm entity :
  resolvable tm entity = true
  <-> exists master_link template_entity,
        get entity "MasterLinkID" = Some master_link
        /\ master_link <> EmptyString
        /\ tm !! master_link = Some template_entity.
Proof.
  unfold resolvable. split.
  - destruct (get entity "MasterLinkID") as [ml|]; [|done].
    intros [Hne [t Ht]%bool_decide_eq_true]%andb_prop.
    exists ml, t. split_and!; [done| |done]. by intros ->.
  - intros (ml & t & -> & Hne & Ht). destruct ml; [done|]. simpl.
    apply bool_decide_eq_true. by exists t.
Qed.

Lemma get_entity_data_unresolvable fuel entity cm tm dir :
  resolvable tm entity = false ->
  get_entity_data py_float fuel entity cm tm dir = (Ok None, []).
Proof.
  unfold resolvable, get_entity_data.
  destruct (get entity "MasterLinkID") as [ml|]; [|done].
  destruct (Str.nonempty ml); [|done]. simpl.
  intros Hno%bool_decide_eq_false. destruct (tm !! ml) eqn:Ht; [|done].
  destruct Hno. by eexists.
Qed.

(** What a call on an entity with a template returns, by what the two
    loops return. *)
Lemma get_entity_data_cases fuel entity cm tm dir master_link template_entity :
  get entity "MasterLinkID" = Some master_link ->
  master_link <> EmptyString ->
  tm !! master_link = Some template_entity ->
  get_entity_data py_float fuel entity cm tm dir
  = match collect_components py_float fuel
            (findall template_entity "COMPONENT") cm tm dir [] with
    | (Ok tcomps, evsT) =>
        match collect_components py_float fuel (findall entity "COMPONENT")
                cm tm dir [] with
        | (Ok icomps, evsI) =>
            (Ok (Some {| ed_name := get entity "Name";
                         ed_class := get entity "Class";
                         ed_type := get entity "Type";
                         ed_template_id := get template_entity "LinkID";
                         ed_instance_id := get entity "LinkID";
                         ed_components := Dict.values (Dict.update tcomps icomps) |}),
             evsT ++ evsI)
        | (Raise e, evsI) => (Raise e, evsT ++ evsI)
        end
    | (Raise e, evsT) => (Raise e, evsT)
    end.
Proof.
  intros Hlink Hne Htempl.
  destruct (collect_components py_float fuel
              (findall template_entity "COMPONENT") cm tm dir [])
    as [[T|e] evsT] eqn:HT.
  - destruct (collect_components py_float fuel (findall entity "COMPONENT")
                cm tm dir []) as [[I|e] evsI] eqn:HI.
    + by eapply get_entity_data_resolved.
    + unfold get_entity_data. rewrite Hlink.
      destruct master_link; [done|]. cbn [Str.nonempty negb].
      by rewrite Htempl, HT, bind_ok, HI.
  - unfold get_entity_data. rewrite Hlink.
    destruct master_link; [done|]. cbn [Str.nonempty negb].
    by rewrite Htempl, HT.
Qed.

Lemma keyed_nil : keyed (@nil (hkey float * attributes)).
Proof. by intros k d ?%elem_of_nil. Qed.

Lemma keyed_update (T I : list (hkey float * attributes)) :
  keyed T -> keyed I -> keyed (Dict.update T I).
Proof.
  intros HT HI k d [Hin|Hin]%dict_update_elem; [by apply HT|by apply HI].
Qed.

(** X6. The components of an Entity Record come in the order of the
    merged dictionary: the names of the template's components in their
    order, an overridden name keeping the template's place, and then the
    names that only the instance has, in the instance's order. *)
Theorem components_keep_template_order
    fuel entity cm tm dir master_link template_entity T I evsT evsI :
  get entity "MasterLinkID" = Some master_link ->
  master_link <> EmptyString ->
  tm !! master_link = Some template_entity ->
  collect_components py_float fuel (findall template_entity "COMPONENT")
    cm tm dir [] = (Ok T, evsT) ->
  collect_components py_float fuel (findall entity "COMPONENT")
    cm tm dir [] = (Ok I, evsI) ->
  exists record,
    get_entity_data py_float fuel entity cm tm dir
    = (Ok (Some record), evsT ++ evsI)
    /\ map name_key (ed_components record)
       = map Ok
           (Dict.keys T
            ++ List.filter (fun k => bool_decide (k ∉ Dict.keys T))
                 (Dict.keys I)).
Proof.
  intros Hlink Hne Htempl HT HI.
  eexists. split; [by eapply get_entity_data_resolved|].
  apply collect_components_spec in HT as (HwfT & HkT & _);
    [|apply dict_wf_nil|apply keyed_nil].
  apply collect_components_spec in HI as (HwfI & HkI & _);
    [|apply dict_wf_nil|apply keyed_nil].
  cbn [ed_components]. rewrite <- dict_keys_update by done.
  apply dict_keys_values_keyed. by apply keyed_update.
Qed.

(** X7. In every Entity Record that [get_entity_data] returns, the
    components have pairwise different names: of the components of one
    name, those of the template and those of the instance together, one
    is left. *)
Theorem components_of_a_record_have_different_names
    fuel entity cm tm dir record evs :
  get_entity_data py_float fuel entity cm tm dir = (Ok (Some record), evs) ->
  NoDup (map name_key (ed_components record)).
Proof.
  intros Hrun.
  destruct (resolvable tm entity) eqn:Hres;
    [|by rewrite get_entity_data_unresolvable in Hrun].
  apply resolvable_spec in Hres as (ml & t & Hlink & Hne & Ht).
  rewrite (get_entity_data_cases _ _ _ _ _ _ _ Hlink Hne Ht) in Hrun.
  destruct (collect_components py_float fuel (findall t "COMPONENT")
              cm tm dir []) as [[T|e] evsT] eqn:HT; [|done].
  destruct (collect_components py_float fuel (findall entity "COMPONENT")
              cm tm dir []) as [[I|e] evsI] eqn:HI; [|done].
  injection Hrun as <- <-. cbn [ed_components].
  apply collect_components_spec in HT as (HwfT & HkT & _);
    [|apply dict_wf_nil|apply keyed_nil].
  apply collect_components_spec in HI as (HwfI & HkI & _);
    [|apply dict_wf_nil|apply keyed_nil].
  rewrite (dict_keys_values_keyed name_key Ok) by (by apply keyed_update).
  apply NoDup_fmap_2; [by intros ?? [=]|].
  by apply dict_wf_update.
Qed.

(** X8. [get_entity_data] returns [None] exactly for an entity whose
    master link is missing, empty or no key of the template map; an
    entity with a template gives a record or an exception, never
    [None]. *)
Theorem None_is_returned_exactly_without_a_template
    fuel entity cm tm dir :
  (exists evs,
      get_entity_data py_float fuel entity cm tm dir = (Ok None, evs))
  <-> resolvable tm entity = false.
Proof.
  split.
  - intros [evs Hrun]. destruct (resolvable tm entity) eqn:Hres; [|done].
    apply resolvable_spec in Hres as (ml & t & Hlink & Hne & Ht).
    rewrite (get_entity_data_cases _ _ _ _ _ _ _ Hlink Hne Ht) in Hrun.
    destruct (collect_components py_float fuel (findall t "COMPONENT")
                cm tm dir []) as [[T|e] evsT]; [|done].
    by destruct (collect_components py_float fuel
                   (findall entity "COMPONENT") cm tm dir [])
      as [[I|e] evsI].
  - intros Hres. exists []. by apply get_entity_data_unresolvable.
Qed.

(** X9. A COMPONENT reference that names no component of the map adds
    nothing to the merge and leaves no trace: the loop over the
    references goes on exactly as if the reference were not there. *)
Theorem unknown_component_references_are_passed_over
    fuel before ref after cm tm dir (acc : list (hkey float * attributes)) :
  (forall id c, ~ names_component cm ref id c) ->
  collect_components py_float (S fuel) (before ++ ref :: after) cm tm dir acc
  = collect_components py_float (S fuel) (before ++ after) cm tm dir acc.
Proof. intros Hno. by apply collect_components_skip. Qed.

Lemma collect_components_app fuel before rest cm tm dir :
  forall acc : list (hkey float * attributes),
    collect_components py_float fuel (before ++ rest) cm tm dir acc
    = match collect_components py_float fuel before cm tm dir acc with
      | (Ok acc1, evs1) =>
          let '(r, evs2) :=
            collect_components py_float fuel rest cm tm dir acc1 in
          (r, evs1 ++ evs2)
      | (Raise e, evs1) => (Raise e, evs1)
      end.
Proof.
  induction before as [|ref before IH]; intros acc.
  - simpl. by destruct (collect_components _ _ _ _ _ _ _).
  - cbn [app]. rewrite !collect_components_cons.
    destruct (get_component_data py_float fuel ref cm tm dir)
      as [[[d|]|e] evs]; [| |done].
    + destruct (nonempty_dict d).
      * destruct (name_key d) as [k|e]; [|done]. rewrite IH.
        destruct (collect_components py_float fuel before cm tm dir _)
          as [[acc1|e] evs1]; [|done].
        destruct (collect_components py_float fuel rest cm tm dir acc1).
        by rewrite app_assoc.
      * rewrite IH.
        destruct (collect_components py_float fuel before cm tm dir _)
          as [[acc1|e] evs1]; [|done].
        destruct (collect_components py_float fuel rest cm tm dir acc1).
        by rewrite app_assoc.
    + rewrite IH.
      destruct (collect_components py_float fuel before cm tm dir _)
        as [[acc1|e] evs1]; [|done].
      destruct (collect_components py_float fuel rest cm tm dir acc1).
      by rewrite app_assoc.
Qed.

(** X10. A component whose entry 'name' is a list (a light with a
    reference-list or colour property called "Name") cannot be entered
    under its name: [get_entity_data] ends in [TypeError] at that
    reference, after the events of the references before it. *)
Theorem a_list_for_a_name_ends_the_call
    fuel entity cm tm dir master_link template_entity T evsT
    before ref after acc evs_before d evs l :
  get entity "MasterLinkID" = Some master_link ->
  master_link <> EmptyString ->
  tm !! master_link = Some template_entity ->
  collect_components py_float fuel (findall template_entity "COMPONENT")
    cm tm dir [] = (Ok T, evsT) ->
  findall entity "COMPONENT" = before ++ ref :: after ->
  collect_components py_float fuel before cm tm dir [] = (Ok acc, evs_before) ->
  get_component_data py_float fuel ref cm tm dir = (Ok (Some d), evs) ->
  Dict.get "name" d = Some (VList l) ->
  get_entity_data py_float fuel entity cm tm dir
  = (Raise TypeError, evsT ++ evs_before ++ evs).
Proof.
  intros Hlink Hne Htempl HT Hrefs Hbefore Hcall Hname.
  rewrite (get_entity_data_cases _ _ _ _ _ _ _ Hlink Hne Htempl), HT.
  rewrite Hrefs, collect_components_app, Hbefore.
  rewrite collect_components_cons, Hcall.
  destruct d as [|kv d]; [done|]. cbn [nonempty_dict].
  unfold name_key. by rewrite Hname.
Qed.

(** ** Scene-graph components and asset paths *)

(** X11. A scene-graph component whose "Scene Root" property has no
    text, or that has neither that property nor "NIF File Path", writes
    no path: its dictionary is the base triple over what it inherits, so
    'unreal_path' and 'nif_path_rel' are those of its master, and absent
    without one. "NIF File Path" is not read when there is a "Scene Root"
    property, with text or without. *)
Theorem a_scene_root_without_text_writes_no_path
    fuel ref cm tm dir d evs id c :
  get_component_data py_float fuel ref cm tm dir = (Ok (Some d), evs) ->
  names_component cm ref id c ->
  get c "Class" = Some "NiSceneGraphComponent" ->
  match find_property c "Scene Root" with
  | Some prop => has_text prop = false
  | None =>
      match find_property c "NIF File Path" with
      | Some prop => has_text prop = false
      | None => True
      end
  end ->
  exists md,
    d = base_triple id c md
    /\ ((master_of cm c = None /\ md = [] /\ evs = [])
        \/ (exists m fuel',
              fuel = S fuel' /\ master_of cm c = Some m
              /\ get_component_data py_float fuel' (dummy_ref m) cm tm dir
                 = (Ok (Some md), evs))).
Proof.
  intros Hrun Hn Hclass Hprop.
  apply get_component_data_inv in Hrun
    as (_ & id' & c' & md & evs_m & Hn' & _ & -> & -> & Hmaster).
  destruct (names_component_inj _ _ _ _ _ _ Hn Hn') as [<- <-].
  assert (Hown : own_attributes py_float id c dir md = (base_triple id c md, [])).
  { unfold own_attributes, scene_root_property.
    rewrite bool_decide_eq_false_2 by (rewrite Hclass; by intros [=]).
    rewrite bool_decide_eq_true_2 by done.
    destruct (find_property c "Scene Root") as [p|]; [by rewrite Hprop|].
    destruct (find_property c "NIF File Path") as [p|]; [by rewrite Hprop|].
    done. }
  rewrite Hown. exists md. split; [done|]. cbn [snd]. rewrite app_nil_r.
  destruct Hmaster as [(? & ? & ->)|?]; [by left|by right].
Qed.

(** X12. [get_unreal_asset_path] either gives a path and logs nothing,
    or gives [None] and logs one warning; a path it gives has no
    backslash. *)
Theorem an_asset_path_or_one_warning nif_path_rel gsa_dir :
  match get_unreal_asset_path nif_path_rel gsa_dir with
  | (Some path, evs) => evs = [] /\ lacks "\" path = true
  | (None, evs) => exists msg, evs = [Log WARNING msg]
  end.
Proof.
  unfold get_unreal_asset_path.
  destruct nif_path_rel as [rel|]; [|by eexists].
  destruct (negb (Str.nonempty rel)); [by eexists|].
  destruct (index_of _ _); [|by eexists].
  split; [done|]. by apply lacks_replace.
Qed.

(** ** The second pass *)

Lemma second_pass_step_unresolvable fuel cm tm dir entity :
  resolvable tm entity = false ->
  second_pass_step py_float fuel cm tm dir entity = (Ok [], []).
Proof.
  intros Hres. unfold second_pass_step.
  rewrite get_entity_data_unresolvable by done.
  by destruct (get entity "MasterLinkID").
Qed.

Lemma second_pass_step_resolvable fuel cm tm dir entity new evs :
  resolvable tm entity = true ->
  second_pass_step py_float fuel cm tm dir entity = (Ok new, evs) ->
  exists record,
    new = [record]
    /\ get_entity_data py_float fuel entity cm tm dir = (Ok (Some record), evs)
    /\ ed_instance_id record = get entity "LinkID".
Proof.
  intros Hres Hstep. unfold second_pass_step in Hstep.
  apply resolvable_spec in Hres as (ml & t & Hlink & Hne & Ht).
  rewrite Hlink in Hstep.
  rewrite (get_entity_data_cases _ _ _ _ _ _ _ Hlink Hne Ht) in *.
  destruct (collect_components py_float fuel (findall t "COMPONENT")
              cm tm dir []) as [[T|e] evsT]; [|done].
  destruct (collect_components py_float fuel (findall entity "COMPONENT")
              cm tm dir []) as [[Ic|e] evsI]; [|done].
  rewrite bind_ok in Hstep. simpl in Hstep. rewrite app_nil_r in Hstep.
  injection Hstep as <- <-. by eexists.
Qed.

(** X13. When the second pass returns, the scene has one Entity Record
    for each entity whose master link names a template, and none for any
    other, in the order in which the entities end in the document: the
    instance identifiers of the records appended are the LinkIDs of those
    entities, in order. *)
Theorem one_record_per_instance_in_document_order
    fuel cm tm dir entities : forall scene scene' evs,
  second_pass_loop py_float fuel cm tm dir entities scene = (Ok scene', evs) ->
  map ed_instance_id scene'
  = map ed_instance_id scene
    ++ map (fun entity => get entity "LinkID")
         (List.filter (resolvable tm) entities).
Proof.
  induction entities as [|entity entities IH]; intros scene scene' evs Hrun.
  { injection Hrun as <- <-. simpl. by rewrite app_nil_r. }
  cbn [second_pass_loop List.filter] in *.
  destruct (second_pass_step py_float fuel cm tm dir entity)
    as [[new|e] evs0] eqn:Hstep; [|done].
  rewrite bind_ok in Hrun.
  destruct (second_pass_loop py_float fuel cm tm dir entities (scene ++ new))
    as [[s1|e] evs1] eqn:Hrest; [|done].
  injection Hrun as <- <-. apply IH in Hrest. rewrite Hrest, map_app.
  destruct (resolvable tm entity) eqn:Hres.
  - apply (second_pass_step_resolvable _ _ _ _ _ _ _ Hres) in Hstep
      as (record & -> & _ & Hid).
    simpl. by rewrite Hid, <- app_assoc.
  - rewrite second_pass_step_unresolvable in Hstep by done.
    injection Hstep as <- <-. simpl. by rewrite app_nil_r.
Qed.

(** ** A run of [main]: resolution against emptied maps *)

Lemma emptied_get (m : gmap string element) id e name :
  emptied m -> m !! id = Some e -> get e name = None.
Proof. intros Hm He. apply Hm in He as (Ha & _). unfold get. by rewrite Ha. Qed.

Lemma emptied_findall (m : gmap string element) id e t :
  emptied m -> m !! id = Some e -> findall e t = [].
Proof.
  intros Hm He. apply Hm in He as (_ & _ & Hc). unfold findall.
  by rewrite Hc.
Qed.

(** Against an emptied map, a reference that names a component resolves
    to the link identifier alone, and 'None::None' is recorded. *)
Lemma get_component_data_emptied fuel ref cm tm dir id c :
  emptied cm -> names_component cm ref id c ->
  get_component_data py_float (S fuel) ref cm tm dir
  = (Ok (Some (bare id)), [AddUnhandled "None::None"]).
Proof.
  intros Hcm Hn. pose proof Hn as (_ & _ & Hc).
  assert (Hget : forall name, get c name = None)
    by (intros; by eapply emptied_get).
  rewrite (get_component_data_no_master _ _ _ _ _ _ id c Hn).
  - rewrite own_attributes_unrecognized.
    + unfold base_triple, bare. by rewrite !Hget.
    + unfold recognized. rewrite Hget.
      by intros [?|[?|[?|[?|[?|?]]]]].
  - unfold master_of. by rewrite Hget.
Qed.

Lemma bare_name_key id : name_key (bare id : attributes) = Ok KNone.
Proof. done. Qed.

Lemma names_component_resolving cm ref :
  match get ref "RefLinkID" with
  | Some id =>
      if Str.nonempty id && bool_decide (is_Some (cm !! id))
      then exists c, names_component cm ref id c
      else forall id' c, ~ names_component cm ref id' c
  | None => forall id' c, ~ names_component cm ref id' c
  end.
Proof.
  unfold names_component.
  destruct (get ref "RefLinkID") as [id|]; [|by intros ?? (? & _)].
  destruct (Str.nonempty id) eqn:Hne; simpl.
  - case_bool_decide as Hin.
    + destruct Hin as [c Hc]. exists c. split_and!; [done| |done].
      by intros ->.
    + intros id' c ([= <-] & _ & Hc). apply Hin. by eexists.
  - intros id' c (Heq & Hid & _). injection Heq as <-. by destruct id.
Qed.

(** The loop over the references against an emptied map: every
    reference that names a component writes the entry of the name
    [None]. *)
Lemma collect_components_emptied fuel refs cm tm dir :
  emptied cm ->
  forall acc : list (hkey float * attributes),
    collect_components py_float (S fuel) refs cm tm dir acc
    = (Ok (fold_left (fun a id => Dict.set KNone (bare id) a)
             (resolving_ids cm refs) acc),
       map (fun _ => AddUnhandled "None::None") (resolving_ids cm refs)).
Proof.
  intros Hcm. induction refs as [|ref refs IH]; intros acc; [done|].
  rewrite collect_components_cons. unfold resolving_ids in *.
  cbn [omap list_omap]. pose proof (names_component_resolving cm ref) as Hn.
  destruct (get ref "RefLinkID") as [id|].
  - destruct (Str.nonempty id && bool_decide (is_Some (cm !! id))).
    + destruct Hn as [c Hn].
      rewrite (get_component_data_emptied _ _ _ _ _ _ _ Hcm Hn).
      cbn [nonempty_dict bare]. fold (@bare float id).
      by rewrite bare_name_key, IH.
    + rewrite get_component_data_unresolved by done. by rewrite IH.
  - rewrite get_component_data_unresolved by done. by rewrite IH.
Qed.

(** The dictionary after the loop has no entry, or the one entry of the
    last reference that named a component. *)
Lemma fold_bare_shape (ids : list string) :
  forall acc : list (hkey float * attributes),
    (acc = [] \/ exists id, acc = [(KNone, bare id)]) ->
    let acc' := fold_left (fun a id => Dict.set KNone (bare id) a) ids acc in
    acc' = [] \/ exists id, acc' = [(KNone, bare id)].
Proof.
  induction ids as [|id ids IH]; intros acc Hacc; [done|].
  cbn [fold_left]. apply IH. right. exists id.
  destruct Hacc as [->|[id0 ->]]; done.
Qed.

Lemma get_entity_data_emptied fuel entity cm tm dir :
  emptied cm -> emptied tm ->
  exists r evs,
    get_entity_data py_float (S fuel) entity cm tm dir = (Ok r, evs)
    /\ (forall record, r = Some record -> hollow_record record)
    /\ Forall (fun s => s = "None::None") (added evs).
Proof.
  intros Hcm Htm. destruct (resolvable tm entity) eqn:Hres.
  2: { exists None, []. rewrite get_entity_data_unresolvable by done.
       by split_and!. }
  apply resolvable_spec in Hres as (ml & t & Hlink & Hne & Ht).
  rewrite (get_entity_data_cases _ _ _ _ _ _ _ Hlink Hne Ht).
  rewrite (emptied_findall tm ml t "COMPONENT" Htm Ht).
  rewrite (collect_components_emptied _ (findall entity "COMPONENT")
             _ _ _ Hcm).
  cbn [collect_components ret]. eexists _, _. split; [done|].
  split.
  - intros record [= <-]. split; cbn [ed_template_id ed_components].
    + by eapply emptied_get.
    + destruct (fold_bare_shape (resolving_ids cm (findall entity "COMPONENT"))
                  [] (or_introl eq_refl)) as [->|[id ->]];
        [by left|right; by exists id].
  - simpl. unfold added. clear.
    induction (resolving_ids cm (findall entity "COMPONENT")); simpl;
      by constructor.
Qed.

Lemma second_pass_loop_emptied fuel cm tm dir entities :
  emptied cm -> emptied tm ->
  forall scene,
    Forall hollow_record scene ->
    exists scene' evs,
      second_pass_loop py_float (S fuel) cm tm dir entities scene
      = (Ok scene', evs)
      /\ Forall hollow_record scene'
      /\ Forall (fun s => s = "None::None") (added evs).
Proof.
  intros Hcm Htm. induction entities as [|entity entities IH];
    intros scene Hscene.
  { exists scene, []. by split_and!. }
  cbn [second_pass_loop]. unfold second_pass_step.
  destruct (get_entity_data_emptied fuel entity cm tm dir Hcm Htm)
    as (r & evs0 & Hcall & Hshape & Hadded).
  assert (Hstep : exists new evs1,
             (match get entity "MasterLinkID" with
              | Some _ =>
                  bind (get_entity_data py_float (S fuel) entity cm tm dir)
                    (fun entity_data =>
                       match entity_data with
                       | Some ed => ret [ed]
                       | None => ret []
                       end)
              | None => ret []
              end) = (Ok new, evs1)
             /\ Forall hollow_record new
             /\ Forall (fun s => s = "None::None") (added evs1)).
  { destruct (get entity "MasterLinkID"); [|by exists [], []].
    rewrite Hcall, bind_ok. destruct r as [record|]; simpl.
    - exists [record], evs0. rewrite app_nil_r. split_and!; [done| |done].
      constructor; [by apply Hshape|done].
    - exists [], evs0. rewrite app_nil_r. by split_and!. }
  destruct Hstep as (new & evs1 & -> & Hnew & Hadd1). rewrite bind_ok.
  destruct (IH (scene ++ new)) as (scene' & evs2 & -> & Hscene' & Hadd2);
    [by apply Forall_app|].
  exists scene', (evs1 ++ evs2). split_and!; [done|done|].
  rewrite added_app. by apply Forall_app.
Qed.

Lemma first_pass_maps_emptied doc :
  emptied (components_map (first_pass doc))
  /\ emptied (templates_map (first_pass doc)).
Proof.
  split; intros id e He; apply (first_pass_maps_hold_no_data doc id e);
    [by left|by right].
Qed.

Lemma main_shape fuel doc dir :
  exists scene evs,
    main py_float (S fuel) doc dir = (Some scene, evs)
    /\ Forall hollow_record scene
    /\ Forall (fun s => s = "None::None") (added evs).
Proof.
  destruct (first_pass_maps_emptied doc) as [Hcm Htm].
  destruct (second_pass_loop_emptied fuel _ _ dir (end_events ["ENTITY"] doc)
              Hcm Htm [] (Forall_nil_2 _))
    as (scene & evs & Hloop & Hscene & Hadded).
  unfold main. rewrite Hloop. eexists _, _. split; [done|]. split; [done|].
  rewrite !added_app. simpl.
  repeat (apply Forall_app; split); try done.
  destruct (elements (unhandled_of evs)) as [|u us]; [done|]. simpl.
  clear. induction (merge_sort _ _) as [|x l IH]; simpl; [constructor|exact IH].
Qed.

(** X14. A run on a parsed file fails in its passes in one case only,
    and then in the first pass: when the root element is itself an ENTITY
    or a COMPONENT and a comment or a processing instruction stands before
    it, the release of the root raises, the error is logged after the
    first message and no scene is written. In every other case the scene
    is written: every master link is read from an element that the first
    pass has emptied, so no chain of masters is followed and no name is a
    list. *)
Theorem a_run_fails_only_at_the_release_of_the_root fuel (file : document) dir :
  match release ["ENTITY"; "COMPONENT"] file with
  | Raise _ =>
      prolog file <> 0
      /\ (tag (root file) = "ENTITY" \/ tag (root file) = "COMPONENT")
      /\ run py_float (S fuel) file dir
         = (None, [Log INFO FirstPassStart; Log ERROR UnexpectedError])
  | Ok _ =>
      (prolog file = 0
       \/ (tag (root file) <> "ENTITY" /\ tag (root file) <> "COMPONENT"))
      /\ exists scene evs,
          run py_float (S fuel) file dir = (Some scene, evs)
          /\ main py_float (S fuel) (root file) dir = (Some scene, evs)
  end.
Proof.
  unfold run, release. destruct file as [n r]. cbn [prolog root].
  case_bool_decide as Htag.
  - destruct n as [|n]; cbn [release_root].
    + split; [by left|].
      destruct (main_shape fuel r dir) as (scene & evs & Hmain & _).
      by exists scene, evs.
    + split; [done|]. split; [|done].
      apply elem_of_cons in Htag as [->|Htag]; [by left|].
      apply list_elem_of_singleton in Htag as ->. by right.
  - split.
    + right. split; intros Ht; apply Htag; rewrite Ht.
      * by left.
      * right. by left.
    + destruct (main_shape fuel r dir) as (scene & evs & Hmain & _).
      by exists scene, evs.
Qed.

(** X15. In the scene a run of [main] writes, every Entity Record has
    the template identifier null and has no component or a single one,
    which holds a link identifier with class and name null: nothing of
    the template's or the components' data reaches the output. *)
Theorem a_run_writes_hollow_records fuel doc dir :
  match (main py_float (S fuel) doc dir).1 with
  | Some scene => Forall hollow_record scene
  | None => True
  end.
Proof.
  destruct (main_shape fuel doc dir) as (scene & evs & -> & Hscene & _).
  done.
Qed.

(** X16. The only string a run of [main] ever adds to the set of
    unhandled components is 'None::None': the classes and names of the
    document's components do not reach the report. *)
Theorem a_run_reports_only_None_None fuel doc dir :
  Forall (fun s => s = "None::None")
    (added (main py_float (S fuel) doc dir).2).
Proof.
  destruct (main_shape fuel doc dir) as (scene & evs & -> & _ & Hadded).
  done.
Qed.

End MoreConverterFacts.

(** ** The first pass, by link identifier *)
Section MoreFirstPassFacts.

Lemma last_match_is_Some {A} (p : A -> bool) (l : list A) :
  is_Some (last_match p l) <-> exists x, x ∈ l /\ p x = true.
Proof.
  induction l as [|x l IH]; simpl.
  - split; [by intros [? ?]|by intros (? & ?%elem_of_nil & _)].
  - destruct (last_match p l) as [y|].
    + split; [|by eexists]. intros _.
      destruct (proj1 IH) as (z & Hz & Hp); [by eexists|].
      exists z. split; [apply elem_of_cons; by right|done].
    + destruct (p x) eqn:Hx.
      * split; [|by eexists]. intros _. exists x.
        split; [apply elem_of_cons; by left|done].
      * split; [by intros [? ?]|].
        intros (z & [->|Hz]%elem_of_cons & Hp); [congruence|].
        apply IH. by exists z.
Qed.

(** X17. After the first pass a link identifier is a key of the
    component map exactly when a COMPONENT element of the document has it
    for non-empty LinkID, and a key of the template map exactly when an
    ENTITY element without MasterLinkID attribute has it for non-empty
    LinkID: elements without LinkID are passed over and entities with a
    master link are never entered. *)
Theorem first_pass_keys doc id :
  (is_Some (components_map (first_pass doc) !! id)
   <-> exists e,
         e ∈ end_events ["ENTITY"; "COMPONENT"] doc
         /\ is_component_with id e = true)
  /\ (is_Some (templates_map (first_pass doc) !! id)
      <-> exists e,
            e ∈ end_events ["ENTITY"; "COMPONENT"] doc
            /\ is_template_with id e = true).
Proof.
  destruct (first_pass_binds_emptied_elements doc id) as [-> ->].
  rewrite !fmap_is_Some. split; apply last_match_is_Some.
Qed.

Lemma first_pass_loop_refs
    (sel : link_index -> gmap string nat) (p : string -> element -> bool) :
  (forall ix n e id,
      sel (first_pass_step ix n e) !! id
      = if p id e then Some n else sel ix !! id) ->
  forall events ix n id,
    sel (first_pass_loop ix n events) !! id
    = match last_match (fun ne => p id ne.2) (numbered n events) with
      | Some ne => Some ne.1
      | None => sel ix !! id
      end.
Proof.
  intros Hstep events. induction events as [|e events IH]; intros ix n id;
    [done|].
  cbn [first_pass_loop numbered last_match]. rewrite IH.
  destruct (last_match _ _); [done|]. cbn [snd fst].
  rewrite Hstep. by destruct (p id e).
Qed.

(** X18. When several elements of the same kind carry the same link
    identifier, the map refers to the one whose end tag comes last in the
    document: the reference under an identifier is the position, among
    the elements the pass receives, of the last element entered under
    it. *)
Theorem the_last_element_of_an_identifier_wins doc id :
  component_refs (first_pass doc) !! id
  = fst <$> last_match (fun ne => is_component_with id ne.2)
              (numbered 0 (end_events ["ENTITY"; "COMPONENT"] doc))
  /\ template_refs (first_pass doc) !! id
     = fst <$> last_match (fun ne => is_template_with id ne.2)
                 (numbered 0 (end_events ["ENTITY"; "COMPONENT"] doc)).
Proof.
  unfold first_pass. split.
  - rewrite (first_pass_loop_refs component_refs is_component_with
               first_pass_step_components).
    by destruct (last_match _ _).
  - rewrite (first_pass_loop_refs template_refs is_template_with
               first_pass_step_templates).
    by destruct (last_match _ _).
Qed.

Lemma at_end_children tags t a x cs :
  children (at_end tags (Element t a x cs)) = settle tags cs [].
Proof. reflexivity. Qed.

Lemma settle_untagged tags cs : forall acc,
  Forall (fun child => tag child ∉ tags) cs ->
  settle tags cs acc = acc ++ map (at_end tags) cs.
Proof.
  induction cs as [|c cs IH]; intros acc Hcs; simpl.
  - by rewrite app_nil_r.
  - apply Forall_cons in Hcs as [Hc Hcs].
    rewrite bool_decide_eq_false_2 by done.
    rewrite IH by done. by rewrite <- app_assoc.
Qed.

Lemma settle_app_tagged tags before inner after : forall acc,
  tag inner ∈ tags ->
  settle tags (before ++ inner :: after) acc = settle tags after [clear inner].
Proof.
  induction before as [|b before IH]; intros acc Hinner; simpl.
  - by rewrite bool_decide_eq_true_2.
  - destruct (bool_decide (tag b ∈ tags)); by apply IH.
Qed.

(** X19. An entity nested in an instance entity costs the instance the
    children that stand before it: when the second pass receives the outer
    entity, the turn of the loop on the inner one has emptied the inner
    entity and deleted everything before it, so of the outer entity's
    COMPONENT references only those after its last ENTITY child are
    resolved. *)
Theorem references_before_a_nested_entity_are_lost
    t a x before inner after :
  tag inner = "ENTITY" ->
  Forall (fun child => tag child <> "ENTITY") after ->
  let outer := at_end ["ENTITY"] (Element t a x (before ++ inner :: after)) in
  children outer = clear inner :: map (at_end ["ENTITY"]) after
  /\ findall outer "COMPONENT"
     = map (at_end ["ENTITY"]) (List.filter (fun c => String.eqb (tag c) "COMPONENT") after).
Proof.
  intros Hinner Hafter outer.
  assert (Hchildren : children outer
                      = clear inner :: map (at_end ["ENTITY"]) after).
  { unfold outer. rewrite at_end_children, settle_app_tagged
      by (rewrite Hinner; by apply list_elem_of_singleton).
    rewrite settle_untagged; [done|].
    eapply Forall_impl; [exact Hafter|].
    intros c Hc ?%list_elem_of_singleton. done. }
  split; [done|]. unfold findall. rewrite Hchildren.
  cbn [List.filter clear tag]. rewrite Hinner. cbn.
  clear. induction after as [|c after IH]; [done|]. cbn [map List.filter].
  assert (Htag : tag (at_end ["ENTITY"] c) = tag c) by (by destruct c).
  rewrite Htag. destruct (String.eqb (tag c) "COMPONENT"); simpl;
    by rewrite IH.
Qed.

End MoreFirstPassFacts.

(** ** The further properties on the example documents *)

Lemma collect_parts_template :
  collect_components Decimal.read 1
    (findall entity_parts_template "COMPONENT") map_parts map_parts_templates
    "maps" []
  = (Ok [(KStr "Root", data_named "10" "Root");
         (KStr "Body", data_named "11" "Body")], []).
Proof. by vm_compute. Defined.

Lemma collect_parts_instance :
  collect_components Decimal.read 1
    (findall entity_parts_instance "COMPONENT") map_parts map_parts_templates
    "maps" []
  = (Ok [(KStr "Tail", data_named "21" "Tail");
         (KStr "Root", data_named "20" "Root")], []).
Proof. by vm_compute. Defined.

Lemma components_keep_template_order_witness :
  exists record,
    get_entity_data Decimal.read 1 entity_parts_instance map_parts
      map_parts_templates "maps"
    = (Ok (Some record), [] ++ [])
    /\ map name_key (ed_components record)
       = map Ok
           (Dict.keys [(KStr "Root", data_named "10" "Root");
                       (KStr "Body", data_named "11" "Body")]
            ++ List.filter
                 (fun k =>
                    bool_decide
                      (k ∉ Dict.keys [(KStr "Root", data_named "10" "Root");
                                      (KStr "Body", data_named "11" "Body")]))
                 (Dict.keys [(KStr "Tail", data_named "21" "Tail");
                             (KStr "Root", data_named "20" "Root")])).
Proof.
  apply (components_keep_template_order Decimal.read 1 entity_parts_instance
           map_parts map_parts_templates "maps" "100" entity_parts_template);
    [reflexivity|done|reflexivity|exact collect_parts_template
    |exact collect_parts_instance].
Defined.

Lemma get_entity_data_parts :
  get_entity_data Decimal.read 1 entity_parts_instance map_parts
    map_parts_templates "maps"
  = (Ok (Some {| ed_name := Some "Cat 01"; ed_class := None;
                 ed_type := None; ed_template_id := Some "100";
                 ed_instance_id := Some "201";
                 ed_components :=
                   [data_named "20" "Root"; data_named "11" "Body";
                    data_named "21" "Tail"] |}), []).
Proof. by vm_compute. Defined.

Lemma components_of_a_record_have_different_names_witness :
  NoDup (map name_key
           [data_named "20" "Root"; data_named "11" "Body";
            data_named "21" "Tail"]).
Proof.
  exact (components_of_a_record_have_different_names Decimal.read 1
           entity_parts_instance map_parts map_parts_templates "maps" _ _
           get_entity_data_parts).
Defined.

Lemma no_component_99 :
  forall id c, ~ names_component map_parts (ref_to "99") id c.
Proof. intros id c ([= <-] & _ & Hc). done. Defined.

Lemma unknown_component_references_are_passed_over_witness :
  collect_components Decimal.read 1
    ([ref_to "10"] ++ ref_to "99" :: [ref_to "11"]) map_parts ∅ "maps" []
  = collect_components Decimal.read 1 ([ref_to "10"] ++ [ref_to "11"])
      map_parts ∅ "maps" [].
Proof.
  exact (unknown_component_references_are_passed_over Decimal.read 0
           [ref_to "10"] (ref_to "99") [ref_to "11"] map_parts ∅ "maps" []
           no_component_99).
Defined.

Lemma a_list_for_a_name_ends_the_call_witness :
  get_component_data Decimal.read 1 (ref_to "30") map_beacon map_templates
    "maps"
  = (Ok (Some data_beacon), [])
  /\ Dict.get "name" data_beacon = Some (VList [VStr "200"])
  /\ get_entity_data Decimal.read 1 entity_beacon map_beacon map_templates
       "maps"
     = (Raise TypeError, [] ++ [] ++ []).
Proof.
  assert (Hcall : get_component_data Decimal.read 1 (ref_to "30") map_beacon
                    map_templates "maps" = (Ok (Some data_beacon), []))
    by (by vm_compute).
  split_and!; [done|done|].
  apply (a_list_for_a_name_ends_the_call Decimal.read 1 entity_beacon
           map_beacon map_templates "maps" "100" entity_template [] []
           [] (ref_to "30") [] [] [] data_beacon [] [VStr "200"]);
    by vm_compute.
Defined.

Lemma a_scene_root_without_text_writes_no_path_witness :
  get_component_data Decimal.read 1 (ref_to "40") map_hollow ∅ "maps"
  = (Ok (Some data_hollow), [])
  /\ exists md,
      data_hollow = base_triple "40" comp_hollow md
      /\ ((master_of map_hollow comp_hollow = None /\ md = []
           /\ @nil event = [])
          \/ (exists m fuel',
                1 = S fuel' /\ master_of map_hollow comp_hollow = Some m
                /\ get_component_data Decimal.read fuel' (dummy_ref m)
                     map_hollow ∅ "maps"
                   = (Ok (Some md), []))).
Proof.
  assert (Hcall : get_component_data Decimal.read 1 (ref_to "40") map_hollow
                    ∅ "maps" = (Ok (Some data_hollow), []))
    by (by vm_compute).
  split; [done|].
  apply (a_scene_root_without_text_writes_no_path Decimal.read 1
           (ref_to "40") map_hollow ∅ "maps" data_hollow [] "40" comp_hollow
           Hcall); by vm_compute.
Defined.

Lemma second_pass_parts :
  second_pass_loop Decimal.read 1 map_parts map_parts_templates "maps"
    [entity_orphan; entity_parts_instance; entity_parts_template] []
  = (Ok [{| ed_name := Some "Cat 01"; ed_class := None; ed_type := None;
            ed_template_id := Some "100"; ed_instance_id := Some "201";
            ed_components :=
              [data_named "20" "Root"; data_named "11" "Body";
               data_named "21" "Tail"] |}], []).
Proof. by vm_compute. Defined.

Lemma one_record_per_instance_in_document_order_witness :
  map ed_instance_id
    [{| ed_name := Some "Cat 01"; ed_class := None; ed_type := None;
        ed_template_id := Some "100"; ed_instance_id := Some "201";
        ed_components :=
          [data_named "20" "Root"; data_named "11" "Body";
           data_named "21" "Tail"] |}]
  = map ed_instance_id (@nil (@entity_data Decimal.decimal))
    ++ map (fun entity => get entity "LinkID")
         (List.filter (resolvable map_parts_templates)
            [entity_orphan; entity_parts_instance; entity_parts_template]).
Proof.
  exact (one_record_per_instance_in_document_order Decimal.read 1 map_parts
           map_parts_templates "maps"
           [entity_orphan; entity_parts_instance; entity_parts_template]
           [] _ _ second_pass_parts).
Defined.

Lemma resolve_A :
  get_component_data Decimal.read 2 (dummy_ref "1") map_AB ∅ "maps"
  = (Ok (Some data_A), []).
Proof. by vm_compute. Defined.

Lemma the_nearest_component_of_the_chain_gives_the_entry_witness :
  names_component map_AB (dummy_ref "1") "1" comp_A
  /\ forall k,
      Dict.get k data_A = nearest_entry Decimal.read map_AB "maps" 2 "1" k.
Proof.
  assert (Hn : names_component map_AB (dummy_ref "1") "1" comp_A) by done.
  split; [done|].
  exact (the_nearest_component_of_the_chain_gives_the_entry Decimal.read 2
           (dummy_ref "1") map_AB ∅ "maps" data_A [] "1" comp_A resolve_A Hn).
Defined.

Lemma references_before_a_nested_entity_are_lost_witness :
  children (at_end ["ENTITY"] entity_nested)
  = clear (Element "ENTITY" [("LinkID", "501"); ("MasterLinkID", "100")]
             None [])
    :: map (at_end ["ENTITY"]) [ref_to "11"]
  /\ findall (at_end ["ENTITY"] entity_nested) "COMPONENT"
     = map (at_end ["ENTITY"])
         (List.filter (fun c => String.eqb (tag c) "COMPONENT") [ref_to "11"]).
Proof.
  apply (references_before_a_nested_entity_are_lost "ENTITY"
           [("LinkID", "500"); ("MasterLinkID", "100")] None [ref_to "10"]
           (Element "ENTITY" [("LinkID", "501"); ("MasterLinkID", "100")]
              None [])
           [ref_to "11"]); [reflexivity|].
  by repeat constructor.
Defined.

Lemma None_is_returned_exactly_for_unknown_references_witness :
  get_component_data Decimal.read 1 (ref_to "99") map_parts ∅ "maps"
  = (Ok None, [])
  /\ (forall id c, ~ names_component map_parts (ref_to "99") id c)
  /\ @nil event = [].
Proof.
  assert (Hrun : get_component_data Decimal.read 1 (ref_to "99") map_parts ∅
                   "maps" = (Ok None, []))
    by exact (proj1 (None_is_returned_exactly_for_unknown_references
                       Decimal.read 0 (ref_to "99") map_parts ∅ "maps")
                no_component_99).
  split; [exact Hrun|].
  exact (proj2 (None_is_returned_exactly_for_unknown_references
                  Decimal.read 0 (ref_to "99") map_parts ∅ "maps")
           [] Hrun).
Defined.

Lemma a_run_fails_only_at_the_release_of_the_root_witness :
  run Decimal.read 1 file_commented_root "maps"
  = (None, [Log INFO FirstPassStart; Log ERROR UnexpectedError])
  /\ (exists scene evs,
        run Decimal.read 1 (file_roots 1) "maps" = (Some scene, evs)
        /\ main Decimal.read 1 doc_roots "maps" = (Some scene, evs)).
Proof.
  split.
  - exact (proj2 (proj2 (a_run_fails_only_at_the_release_of_the_root
                           Decimal.read 0 file_commented_root "maps"))).
  - exact (proj2 (a_run_fails_only_at_the_release_of_the_root
                    Decimal.read 0 (file_roots 1) "maps")).
Defined.
